(** * Google AI key checker and Google AI -> OpenAI stream transcoder

    A shallow embedding of

      - [src/shared/key-management/google-ai/checker.ts]
        (class [GoogleAIKeyChecker]), and
      - the SSE transformer [googleAIToOpenAI] with its helpers
        [isSafetyStop] and [asCompletion],

    together with the part of the JavaScript run time these two files rely
    on: JSON values, property access, truthiness, [JSON.stringify],
    [String.prototype.trim], [String.prototype.replace] with the regular
    expression [/^(.*?): /] and [String.prototype.match] called with a
    pattern string.

    Conventions.  A JavaScript string is a Rocq [string], one [ascii] per
    code unit (code units above 255 are outside the model).  A JavaScript
    number is a [Z] (timestamps, HTTP statuses, lengths and the integer
    literals of a JSON text; fractions are outside the model).  The value
    [undefined] is [None] in [option JSValue]. *)

From Stdlib Require Import String Ascii List ZArith Lia Bool.
Import ListNotations.

Local Open Scope string_scope.
Local Open Scope Z_scope.

Set Warnings "-register-all".

(* ================================================================== *)
(** * The JavaScript fragment                                          *)
(* ================================================================== *)

Module JS.

(** ** Values *)

(** What [JSON.parse] can return.  The properties of an object are kept in
    enumeration order, each name once. *)
Inductive JSValue : Type :=
| JNull
| JBool (b : bool)
| JNum (n : Z)
| JStr (s : string)
| JArr (xs : list JSValue)
| JObj (props : list (string * JSValue)).

(** A value or [undefined]. *)
Definition JSU : Type := option JSValue.

Definition undefined : JSU := None.

(** Errors a computation can throw. *)
Inductive Exn : Type :=
| TypeError
| SyntaxError
| Error (message : string).

(** Outcome of evaluating an expression: a value, or an exception. *)
Inductive Completion (A : Type) : Type :=
| Normal (a : A)
| Throw (e : Exn).
Arguments Normal {A} a.
Arguments Throw {A} e.

(** ** Characters and strings *)

(** The string holding the one double-quote character (code unit 34). *)
Definition dquote : string := String "034"%char "".

Definition code (c : ascii) : nat := nat_of_ascii c.

(** WhiteSpace and LineTerminator code units below 256: TAB, LF, VT, FF, CR,
    SP and NBSP.  These are the characters [trim] removes. *)
Definition isWhiteSpace (c : ascii) : bool :=
  let n := code c in
  ((9 <=? n) && (n <=? 13))%nat || (n =? 32)%nat || (n =? 160)%nat.

(** LineTerminator code units below 256: LF and CR.  The regular
    expression atom [.] (without the [s] flag) matches every character
    but these. *)
Definition isLineTerminator (c : ascii) : bool :=
  let n := code c in (n =? 10)%nat || (n =? 13)%nat.

Fixpoint startsWith (prefix s : string) : bool :=
  match prefix, s with
  | EmptyString, _ => true
  | String a p, String b r => Ascii.eqb a b && startsWith p r
  | String _ _, EmptyString => false
  end.

(** [includes needle s]: [needle] occurs in [s] as a substring. *)
Fixpoint includes (needle s : string) : bool :=
  startsWith needle s
  || match s with
     | EmptyString => false
     | String _ r => includes needle r
     end.

Fixpoint drop (n : nat) (s : string) : string :=
  match n, s with
  | O, _ => s
  | S k, String _ r => drop k r
  | S _, EmptyString => EmptyString
  end.

Definition isEmpty (s : string) : bool :=
  match s with EmptyString => true | _ => false end.

Fixpoint trimStart (s : string) : string :=
  match s with
  | String c r => if isWhiteSpace c then trimStart r else s
  | EmptyString => EmptyString
  end.

Fixpoint trimEnd (s : string) : string :=
  match s with
  | EmptyString => EmptyString
  | String c r =>
      let r' := trimEnd r in
      if isWhiteSpace c && isEmpty r' then EmptyString else String c r'
  end.

(** [String.prototype.trim]. *)
Definition trim (s : string) : string := trimEnd (trimStart s).

Definition firstChar (s : string) : option ascii :=
  match s with
  | String c _ => Some c
  | EmptyString => None
  end.

Fixpoint lastChar (s : string) : option ascii :=
  match s with
  | EmptyString => None
  | String c EmptyString => Some c
  | String _ r => lastChar r
  end.

Definition notWhiteSpace (c : option ascii) : bool :=
  match c with
  | Some a => negb (isWhiteSpace a)
  | None => true
  end.

(** A string with no white space at either end. *)
Definition isTrimmed (s : string) : bool :=
  notWhiteSpace (firstChar s) && notWhiteSpace (lastChar s).

(** No character of the string is a line terminator. *)
Fixpoint onOneLine (s : string) : bool :=
  match s with
  | EmptyString => true
  | String c r => negb (isLineTerminator c) && onOneLine r
  end.

Fixpoint join (sep : string) (l : list string) : string :=
  match l with
  | [] => ""
  | [x] => x
  | x :: rest => x ++ sep ++ join sep rest
  end.

(** ASCII lower-casing, used for the [i] flag of a regular expression. *)
Definition toLowerChar (c : ascii) : ascii :=
  let n := code c in
  if ((65 <=? n) && (n <=? 90))%nat then ascii_of_nat (n + 32) else c.

Fixpoint toLower (s : string) : string :=
  match s with
  | EmptyString => EmptyString
  | String c r => String (toLowerChar c) (toLower r)
  end.

(** ** Regular expressions *)

(** A regular expression literal [/source/flags]. *)
Record RegExp : Type := mkRegExp { source : string; flags : string }.

(** [RegExp.prototype.toString]: the literal spelled out again, slashes and
    flags included.  This is what [Array.prototype.join] calls on each
    element of an array of regular expressions. *)
Definition RegExp_toString (r : RegExp) : string :=
  "/" ++ source r ++ "/" ++ flags r.

(** SyntaxCharacter of the pattern grammar, the alternation bar apart. *)
Definition isSyntaxChar (c : ascii) : bool :=
  existsb (Ascii.eqb c)
    ["^"; "$"; "\"; "."; "*"; "+"; "?"; "("; ")"; "["; "]"; "{"; "}"]%char.

(** The alternatives of a pattern made of literal characters and [|] only;
    [None] for a pattern that uses any other syntax character. *)
Fixpoint alternatives (pattern : string) : option (list string) :=
  match pattern with
  | EmptyString => Some [""]
  | String c r =>
      match alternatives r with
      | None => None
      | Some alts =>
          if Ascii.eqb c "|" then Some ("" :: alts)
          else if isSyntaxChar c then None
          else match alts with
               | a :: rest => Some (String c a :: rest)
               | [] => None
               end
      end
  end.

(** [text.match(pattern)] for a pattern given as a STRING: the engine
    builds [new RegExp(pattern)], with no flags, and searches [text] for
    it.  For a pattern of literal alternatives the search succeeds when one
    alternative occurs in [text], case-sensitively.  The result is whether
    the match is non-null ([None]: pattern outside the modelled grammar). *)
Definition String_match (text pattern : string) : option bool :=
  match alternatives pattern with
  | None => None
  | Some alts => Some (existsb (fun a => includes a text) alts)
  end.

(** [re.test(text)] for a regular expression OBJECT whose source is made of
    literal characters: with the [i] flag the search ignores case. *)
Definition RegExp_test (re : RegExp) (text : string) : bool :=
  if includes "i" (flags re)
  then includes (toLower (source re)) (toLower text)
  else includes (source re) text.

(** [text.replace(/^(.*?): /, "")].  The pattern is anchored at the start
    of the text (no [m] flag); [(.*?)] is lazy, so at each position the
    engine first tries the rest of the pattern, [": "], and only when that
    fails lets [.] take one more character, which must not be a line
    terminator.  [None] when the pattern does not match, else the text
    after the match. *)
Fixpoint afterSpeaker (s : string) : option string :=
  if startsWith ": " s then Some (drop 2 s)
  else match s with
       | EmptyString => None
       | String c r => if isLineTerminator c then None else afterSpeaker r
       end.

Definition replaceSpeaker (s : string) : string :=
  match afterSpeaker s with
  | Some rest => rest
  | None => s
  end.

(** ** Numbers to strings *)

Definition digitChar (d : Z) : ascii := ascii_of_nat (48 + Z.to_nat d).

Fixpoint digits (fuel : nat) (n : Z) (acc : string) : string :=
  let acc' := String (digitChar (n mod 10)) acc in
  match fuel with
  | O => acc'
  | S f => if n <? 10 then acc' else digits f (n / 10) acc'
  end.

(** [Number.prototype.toString] on an integer. *)
Definition Number_toString (n : Z) : string :=
  if n <? 0
  then String "-" (digits (Z.to_nat (Z.log2 (- n))) (- n) "")
  else digits (Z.to_nat (Z.log2 n)) n "".

(** ** JSON.stringify *)

Definition hexChar (d : nat) : ascii :=
  if (d <? 10)%nat then ascii_of_nat (48 + d) else ascii_of_nat (87 + d).

(** QuoteJSONString, one code unit. *)
Definition escapeChar (c : ascii) : string :=
  let n := code c in
  if (n =? 8)%nat then "\b"
  else if (n =? 9)%nat then "\t"
  else if (n =? 10)%nat then "\n"
  else if (n =? 12)%nat then "\f"
  else if (n =? 13)%nat then "\r"
  else if (n =? 34)%nat then "\" ++ dquote
  else if (n =? 92)%nat then "\\"
  else if (n <? 32)%nat
       then "\u00" ++ String (hexChar (n / 16)) (String (hexChar (n mod 16)) "")
       else String c "".

Fixpoint escape (s : string) : string :=
  match s with
  | EmptyString => EmptyString
  | String c r => escapeChar c ++ escape r
  end.

Definition quote (s : string) : string := dquote ++ escape s ++ dquote.

(** [JSON.stringify(v)] with no indentation. *)
Fixpoint stringify (v : JSValue) : string :=
  match v with
  | JNull => "null"
  | JBool true => "true"
  | JBool false => "false"
  | JNum n => Number_toString n
  | JStr s => quote s
  | JArr xs => "[" ++ join "," (map stringify xs) ++ "]"
  | JObj props =>
      "{"
      ++ join "," (map (fun kv => quote (fst kv) ++ ":" ++ stringify (snd kv))
                       props)
      ++ "}"
  end.

(** [JSON.stringify(undefined)] is [undefined]; inside a template literal
    that prints as the word "undefined". *)
Definition stringifyInTemplate (v : JSU) : string :=
  match v with
  | None => "undefined"
  | Some x => stringify x
  end.

(** ** Property access and operators *)

Fixpoint assoc (k : string) (props : list (string * JSValue)) : JSU :=
  match props with
  | [] => None
  | (k', v) :: rest => if String.eqb k k' then Some v else assoc k rest
  end.

Definition strLength (s : string) : Z := Z.of_nat (String.length s).

(** [v.name] for a property name that no built-in prototype defines
    (every name the two source files read) or for [length].  Reading a
    property of [null] or [undefined] throws. *)
Definition getProp (v : JSU) (name : string) : Completion JSU :=
  match v with
  | None | Some JNull => Throw TypeError
  | Some (JObj props) => Normal (assoc name props)
  | Some (JArr xs) =>
      if String.eqb name "length"
      then Normal (Some (JNum (Z.of_nat (List.length xs))))
      else Normal None
  | Some (JStr s) =>
      if String.eqb name "length"
      then Normal (Some (JNum (strLength s)))
      else Normal None
  | Some (JBool _) | Some (JNum _) => Normal None
  end.

(** [v[0]]. *)
Definition getFirst (v : JSU) : Completion JSU :=
  match v with
  | None | Some JNull => Throw TypeError
  | Some (JObj props) => Normal (assoc "0" props)
  | Some (JArr xs) => Normal (List.hd_error xs)
  | Some (JStr (String c _)) => Normal (Some (JStr (String c "")))
  | Some (JStr EmptyString) => Normal None
  | Some (JBool _) | Some (JNum _) => Normal None
  end.

Definition isNullish (v : JSU) : bool :=
  match v with
  | None | Some JNull => true
  | _ => false
  end.

(** [v?.name]. *)
Definition getPropOpt (v : JSU) (name : string) : JSU :=
  match getProp v name with
  | Normal r => r
  | Throw _ => None
  end.

(** ToBoolean. *)
Definition truthy (v : JSU) : bool :=
  match v with
  | None | Some JNull => false
  | Some (JBool b) => b
  | Some (JNum n) => negb (n =? 0)
  | Some (JStr s) => negb (isEmpty s)
  | Some (JArr _) | Some (JObj _) => true
  end.

(** [a || b]. *)
Definition orElse (a b : JSU) : JSU := if truthy a then a else b.

(** [a ?? b]. *)
Definition coalesce (a : JSU) (b : JSValue) : JSValue :=
  match a with
  | None | Some JNull => b
  | Some x => x
  end.

(** [v === 0]. *)
Definition isZero (v : JSU) : bool :=
  match v with
  | Some (JNum n) => n =? 0
  | _ => false
  end.

(** [v === s] for a string [s]; also what [Array.prototype.includes] does
    on an array of strings. *)
Definition isString (s : string) (v : JSValue) : bool :=
  match v with
  | JStr t => String.eqb s t
  | _ => false
  end.

End JS.

(* ================================================================== *)
(** * The key checker: [google-ai/checker.ts]                          *)
(* ================================================================== *)

Module Checker.
Import JS.

Definition MIN_CHECK_INTERVAL : Z := 3 * 1000.
Definition KEY_CHECK_PERIOD : Z := 6 * 60 * 60 * 1000.
Definition LIST_MODELS_URL : string :=
  "https://generativelanguage.googleapis.com/v1beta/models".
Definition GENERATE_CONTENT_URL : string :=
  "https://generativelanguage.googleapis.com/v1beta/models/gemini-1.5-pro-latest:generateContent?key=%KEY%".

(** ** Data *)

Definition GoogleAIModelFamily : Type := string.

(** Modelled from the spec: the key record [GoogleAIKey] ([./provider] is
    not among the sources).  Section 3 gives its fields: the raw secret,
    the [hash] used in logs and patches, and the mutable fields
    [isDisabled], [isRevoked], [lastChecked], [modelFamilies] and
    [modelIds]. *)
Record GoogleAIKey : Type := mkKey {
  key : string;
  hash : string;
  isDisabled : bool;
  isRevoked : bool;
  lastChecked : Z;
  modelFamilies : list GoogleAIModelFamily;
  modelIds : list string
}.

(** [Partial<GoogleAIKey>], the second argument of [updateKey]: a field is
    [None] when the object literal does not mention it. *)
Record Patch : Type := mkPatch {
  p_isDisabled : option bool;
  p_isRevoked : option bool;
  p_lastChecked : option Z;
  p_modelFamilies : option (list GoogleAIModelFamily);
  p_modelIds : option (list string)
}.

Definition emptyPatch : Patch := mkPatch None None None None None.

(** The object literal [{ isDisabled: true, isRevoked: true }]. *)
Definition disableAndRevoke : Patch :=
  mkPatch (Some true) (Some true) None None None.

(** The object literal [{ lastChecked: t }]. *)
Definition setLastChecked (t : Z) : Patch :=
  mkPatch None None (Some t) None None.

(** One entry of [ListModelsResponse.models]; only [name] is read. *)
Record ModelInfo : Type := mkModelInfo { name : string }.

Record ListModelsResponse : Type := mkListModels {
  models : list ModelInfo;
  nextPageToken : string
}.

Record AxiosResponse : Type := mkResponse {
  status : Z;
  data : JSU
}.

(** [AxiosError]: [response] is absent when the request got no answer. *)
Record AxiosError : Type := mkAxiosError {
  message : string;
  response : option AxiosResponse
}.

(** Settlement of an awaited axios call. *)
Inductive Result (A : Type) : Type :=
| Resolved (a : A)
| Rejected (e : AxiosError).
Arguments Resolved {A} a.
Arguments Rejected {A} e.

(** What the network did with a request. *)
Inductive HttpOutcome : Type :=
| NoResponse (message : string)
| Response (r : AxiosResponse).

(** axios settles a request from the [validateStatus] option: the promise
    resolves when the predicate accepts the status and is rejected with an
    [AxiosError] carrying the response otherwise; without a response it is
    rejected with an error that has none. *)
Definition settle (validateStatus : Z -> bool) (o : HttpOutcome)
  : Result AxiosResponse :=
  match o with
  | NoResponse m => Rejected (mkAxiosError m None)
  | Response r =>
      if validateStatus (status r) then Resolved r
      else Rejected
             (mkAxiosError
                ("Request failed with status code " ++ Number_toString (status r))
                (Some r))
  end.

Inductive Level : Type := LInfo | LWarn | LError.

(** What the checker does to the outside world, in order. *)
Inductive Effect : Type :=
| HttpGet (url : string)
| HttpPost (url : string) (payload : JSValue)
| UpdateKey (keyHash : string) (patch : Patch)
| Log (level : Level) (fields : list (string * JSU)) (msg : string).

Definition strings (l : list string) : JSU := Some (JArr (map JStr l)).

(** [url.replace("%KEY%", k)] on a [url] that holds the marker once and a
    [k] without [$] (a replacement pattern would be expanded). *)
Fixpoint replaceKey (url k : string) : string :=
  if startsWith "%KEY%" url then k ++ drop 5 url
  else match url with
       | EmptyString => EmptyString
       | String c r => String c (replaceKey r k)
       end.

(** [Set.prototype.add] on a set kept in insertion order. *)
Definition Set_add (x : string) (s : list string) : list string :=
  if existsb (String.eqb x) s then s else (s ++ [x])%list.

Section WithEnvironment.

(** [getGoogleAIModelFamily] of [../../models], not among the sources. *)
Variable getGoogleAIModelFamily : string -> GoogleAIModelFamily.

(** The [updateKey] callback handed to the constructor, as its effect on
    the key object the checker holds a reference to. *)
Variable updateKey : string -> Patch -> GoogleAIKey -> GoogleAIKey.

(** ** [getProvisionedModels] *)

Definition collect (ms : list ModelInfo)
  : list string * list GoogleAIModelFamily :=
  fold_left
    (fun acc m =>
       let '(ids, families) := acc in
       let families' := Set_add (getGoogleAIModelFamily (name m)) families in
       (Set_add (name m) ids, families'))
    ms ([], []).

Definition getProvisionedModels (k : GoogleAIKey)
    (listed : Result ListModelsResponse)
  : list Effect * GoogleAIKey * Result (list GoogleAIModelFamily) :=
  let get := HttpGet (LIST_MODELS_URL ++ "?pageSize=1000&key=" ++ key k) in
  match listed with
  | Rejected e => ([get], k, Rejected e)
  | Resolved d =>
      let '(ids, families) := collect (models d) in
      let familiesArray := families in
      let patch := mkPatch None None None (Some familiesArray) (Some ids) in
      ([get; UpdateKey (hash k) patch],
       updateKey (hash k) patch k,
       Resolved familiesArray)
  end.

(** ** [testGenerateContent] *)

Definition payload : JSValue :=
  JObj [("contents",
         JArr [JObj [("parts", JObj [("text", JStr "hello")]);
                     ("role", JStr "user")]]);
        ("tools", JArr []);
        ("safetySettings", JArr []);
        ("generationConfig", JObj [("maxOutputTokens", JNum 1)])].

Definition testGenerateContent (k : GoogleAIKey) (answer : HttpOutcome)
  : list Effect * Result unit :=
  let post := HttpPost (replaceKey GENERATE_CONTENT_URL (key k)) payload in
  match settle (fun status => status =? 200) answer with
  | Resolved _ => ([post], Resolved tt)
  | Rejected e => ([post], Rejected e)
  end.

(** ** [testKeyOrFail] *)

Definition testKeyOrFail (k : GoogleAIKey)
    (listed : Result ListModelsResponse) (answer : HttpOutcome)
  : list Effect * GoogleAIKey * Result unit :=
  match getProvisionedModels k listed with
  | (t1, k1, Rejected e) => (t1, k1, Rejected e)
  | (t1, k1, Resolved provisionedModels) =>
      match testGenerateContent k1 answer with
      | (t2, Rejected e) => ((t1 ++ t2)%list, k1, Rejected e)
      | (t2, Resolved _) =>
          let updates := mkPatch None None None (Some provisionedModels) None in
          let k2 := updateKey (hash k1) updates k1 in
          ((t1 ++ t2
             ++ [UpdateKey (hash k1) updates;
                 Log LInfo
                   [("key", Some (JStr (hash k2)));
                    ("models", strings (modelFamilies k2));
                    ("ids", Some (JNum (Z.of_nat (List.length (modelIds k2)))))]
                   "Checked key."])%list,
           k2, Resolved tt)
      end
  end.

(** ** [errorIsGoogleAIError] *)

(** [data?.error?.code || data?.error?.status]; the caller uses the value
    as a condition. *)
Definition errorIsGoogleAIError (error : AxiosError) : JSU :=
  let data := match response error with
              | Some r => data r
              | None => None
              end in
  orElse (getPropOpt (getPropOpt data "error") "code")
         (getPropOpt (getPropOpt data "error") "status").

(** ** [handleAxiosError] *)

Definition keyDeadMsgs400 : list RegExp :=
  [mkRegExp "please enable billing" "i";
   mkRegExp "API key not valid" "i";
   mkRegExp "API key expired" "i";
   mkRegExp "pass a valid API" "i"].

Definition keyDeadMsgs429 : list RegExp :=
  [mkRegExp "GenerateContentRequestsPerMinutePerProjectPerRegion" "i";
   mkRegExp (dquote ++ "quota_limit_value" ++ dquote ++ ":"
             ++ dquote ++ "0" ++ dquote) "i"].

(** [text.match(keyDeadMsgs.join("|"))]: [join] turns every regular
    expression into its literal text, and [match] receives that string as
    a pattern. *)
Definition matchesJoined (text : string) (msgs : list RegExp) : bool :=
  match String_match text (join "|" (map RegExp_toString msgs)) with
  | Some b => b
  | None => false
  end.

Definition handleAxiosError (k : GoogleAIKey) (error : AxiosError) (now : Z)
  : list Effect * GoogleAIKey :=
  let finish (logs : list Effect) (patch : Patch) :=
    ((logs ++ [UpdateKey (hash k) patch])%list, updateKey (hash k) patch k) in
  let networkError :=
    let oneMinute := 10 * 1000 in
    let next := now - (KEY_CHECK_PERIOD - oneMinute) in
    finish
      [Log LError
         [("key", Some (JStr (hash k)));
          ("error", Some (JStr (message error)))]
         "Network error while checking key; trying this key again in a minute."]
      (setLastChecked next) in
  match response error with
  | Some resp =>
      if truthy (errorIsGoogleAIError error) then
        let httpStatus := status resp in
        let err := getPropOpt (data resp) "error" in
        let code := getPropOpt err "code" in
        let message := getPropOpt err "message" in
        let status := getPropOpt err "status" in
        let details := getPropOpt err "details" in
        let summary :=
          [("key", Some (JStr (hash k))); ("status", status);
           ("code", code); ("message", message); ("details", details)] in
        let text := stringifyInTemplate err in
        let unexpected :=
          finish
            [Log LError summary
               "Encountered unexpected error status while checking key. This may indicate a change in the API; please report this."]
            (setLastChecked now) in
        if httpStatus =? 400 then
          if matchesJoined text keyDeadMsgs400 then
            finish
              [Log LWarn
                 [("key", Some (JStr (hash k))); ("error", Some (JStr text))]
                 "Key check returned a non-transient 400 error. Disabling key."]
              disableAndRevoke
          else unexpected
        else if (httpStatus =? 401) || (httpStatus =? 403) then
          finish
            [Log LWarn summary
               "Key check returned Forbidden/Unauthorized error. Disabling key."]
            disableAndRevoke
        else if httpStatus =? 429 then
          if matchesJoined text keyDeadMsgs429 then
            finish
              [Log LWarn
                 [("key", Some (JStr (hash k))); ("error", Some (JStr text))]
                 "Key check returned a non-transient 429 error. Disabling key."]
              disableAndRevoke
          else
            let next := now - (KEY_CHECK_PERIOD - 60 * 1000) in
            finish
              [Log LWarn summary
                 "Key is rate limited. Rechecking key in 1 minute."]
              (setLastChecked next)
        else unexpected
      else networkError
  | None => networkError
  end.

(** ** The scheduler's call of the two hooks *)


End WithEnvironment.

(** Modelled from the spec: the pool's [update] ([./provider] is not among
    the sources).  Section 6: it "accepts any subset of the key record's
    mutable fields and applies them atomically"; the record changed is the
    one with the given hash. *)
Definition applyPatch (h : string) (p : Patch) (k : GoogleAIKey) : GoogleAIKey :=
  if String.eqb h (hash k) then
    mkKey (key k) (hash k)
      (match p_isDisabled p with Some b => b | None => isDisabled k end)
      (match p_isRevoked p with Some b => b | None => isRevoked k end)
      (match p_lastChecked p with Some t => t | None => lastChecked k end)
      (match p_modelFamilies p with Some l => l | None => modelFamilies k end)
      (match p_modelIds p with Some l => l | None => modelIds k end)
  else k.

(** Modelled from the spec: section 3, a key is due when
    [now >= lastChecked + recheckPeriod]; the checker passes
    [KEY_CHECK_PERIOD] as the period. *)
Definition dueTime (lastChecked : Z) : Z := lastChecked + KEY_CHECK_PERIOD.

(** ** Reading a trace *)

(** The [updateKey] calls of a trace, in order. *)
Definition updates (t : list Effect) : list (string * Patch) :=
  flat_map (fun e => match e with
                     | UpdateKey h p => [(h, p)]
                     | _ => []
                     end) t.

(** The messages logged, with their levels, in order. *)
Definition logged (t : list Effect) : list (Level * string) :=
  flat_map (fun e => match e with
                     | Log l _ m => [(l, m)]
                     | _ => []
                     end) t.

(** What a patch written by the error handler does to the key: retire it,
    or leave it enabled and make it due [delay] milliseconds after [now]. *)
Inductive Action : Type :=
| Disable
| RecheckIn (delay : Z).

Definition actionOf (now : Z) (p : Patch) : option Action :=
  match p with
  | mkPatch (Some true) (Some true) None None None => Some Disable
  | mkPatch None None (Some t) None None => Some (RecheckIn (dueTime t - now))
  | _ => None
  end.

(** The action of a trace that patches the key [h] once. *)
Definition action (now : Z) (h : string) (t : list Effect) : option Action :=
  match updates t with
  | [(h', p)] => if String.eqb h h' then actionOf now p else None
  | _ => None
  end.

(** The condition of line 98: a response, and a provider error envelope
    in its body. *)
Definition hasEnvelope (error : AxiosError) : bool :=
  match response error with
  | Some _ => truthy (errorIsGoogleAIError error)
  | None => false
  end.

(** The serialized error text [JSON.stringify(error.response.data.error)]
    of a failure. *)
Definition errorText (error : AxiosError) : string :=
  match response error with
  | Some resp => stringifyInTemplate (getPropOpt (data resp) "error")
  | None => "undefined"
  end.

(** The policy table of section 4.2 for a failure that carries a provider
    error envelope, written from the table's rows: [dead400] and [dead429]
    say whether the error text matched the dead-key and the zero-quota
    patterns. *)
Definition policyTable (httpStatus : Z) (dead400 dead429 : bool) : Action :=
  if httpStatus =? 400 then
    if dead400 then Disable else RecheckIn KEY_CHECK_PERIOD
  else if (httpStatus =? 401) || (httpStatus =? 403) then Disable
  else if httpStatus =? 429 then
    if dead429 then Disable else RecheckIn (60 * 1000)
  else RecheckIn KEY_CHECK_PERIOD.

(** What the patterns of a [keyDeadMsgs] array match when each is used as
    the regular expression it is written as: some pattern occurs in the
    text, letter case ignored. *)
Definition matchesSome (text : string) (msgs : list RegExp) : bool :=
  existsb (fun re => RegExp_test re text) msgs.

End Checker.

(* ================================================================== *)
(** * The stream transcoder: [googleAIToOpenAI]                        *)
(* ================================================================== *)

Module Transcoder.
Import JS.

(** ** Data *)

(** Modelled from the spec: [ServerSentEvent] ([../parse-sse] is not among
    the sources).  Section 3: a raw frame is [{eventType?, data}]. *)
Record ServerSentEvent : Type := mkEvent {
  eventType : option string;
  data : string
}.

(** The fields of the transformer's parameter object that the function
    reads. *)
Record Params : Type := mkParams {
  p_data : string;
  p_index : Z;
  fallbackId : string;
  fallbackModel : string
}.

Record Choice : Type := mkChoice {
  index : Z;
  delta_content : JSValue;
  finish_reason : JSValue
}.

(** The [chat.completion.chunk] object the function builds. *)
Record Chunk : Type := mkChunk {
  id : string;
  object : string;
  created : Z;
  model : string;
  choices : list Choice
}.

(** The object the function returns; [event] is absent in the skip
    result [{ position: -1 }]. *)
Record Output : Type := mkOutput {
  position : Z;
  event : option Chunk
}.

Definition skip : Output := mkOutput (-1) None.

(** [log.warn({ error: error.stack, event }, msg)]: the error caught and
    the frame it came from. *)
Inductive LogEntry : Type :=
| Warn (error : Exn) (frame : ServerSentEvent) (msg : string).

(** Sequencing of expressions that may throw. *)
Definition bind {A B : Type} (m : Completion A) (f : A -> Completion B)
  : Completion B :=
  match m with
  | Normal a => f a
  | Throw e => Throw e
  end.

Notation "x <- m ;; k" := (bind m (fun x => k))
  (at level 61, m at next level, right associativity).

Section WithParsers.

(** [parseEvent] of [../parse-sse], not among the sources. *)
Variable parseEvent : string -> ServerSentEvent.

(** [JSON.parse]: [None] when it throws a SyntaxError. *)
Variable JSON_parse : string -> option JSValue.

(** [v > 0] for a [v] that is a string, an array or an object: the
    comparison first converts [v] to a number (ToPrimitive, then
    StringToNumber), which is not modelled here. *)
Variable coercedGt0 : JSValue -> Completion bool.

(** [v > 0]. *)
Definition gt0 (v : JSU) : Completion bool :=
  match v with
  | None | Some JNull => Normal false
  | Some (JBool b) => Normal b
  | Some (JNum n) => Normal (0 <? n)
  | Some x => coercedGt0 x
  end.

(** ** [asCompletion] *)

(** The [try] block: the parsed event, or the exception thrown. *)
Definition tryCompletion (ev : ServerSentEvent) : Completion JSValue :=
  match JSON_parse (data ev) with
  | None => Throw SyntaxError
  | Some parsed =>
      candidates <- getProp (Some parsed) "candidates" ;;
      positive <- gt0 (getPropOpt candidates "length") ;;
      if positive then Normal parsed
      else Throw (Error "Missing required fields")
  end.

(** The result is [None] for [null]. *)
Definition asCompletion (ev : ServerSentEvent) : list LogEntry * JSU :=
  match tryCompletion ev with
  | Normal parsed => ([], Some parsed)
  | Throw error => ([Warn error ev "Received invalid event"], None)
  end.

(** ** [isSafetyStop] *)

(** [completion.candidates[0]]. *)
Definition firstCandidate (completion : JSU) : Completion JSU :=
  candidates <- getProp completion "candidates" ;;
  getFirst candidates.

Definition isSafetyStop (completion : JSU) : Completion bool :=
  c <- firstCandidate completion ;;
  finishReason <- getProp c "finishReason" ;;
  let isSafetyStop :=
    existsb (fun s => isString s (coalesce finishReason (JStr "")))
            ["SAFETY"; "OTHER"] in
  c' <- firstCandidate completion ;;
  content <- getProp c' "content" ;;
  let hasNoContent :=
    isZero (getPropOpt (getPropOpt content "parts") "length") in
  Normal (isSafetyStop && hasNoContent).

(** The two conditions of [isSafetyStop], as functions of the first
    candidate [c]: the finish reason is ["SAFETY"] or ["OTHER"], and
    [c.content?.parts?.length === 0]. *)
Definition stopReason (c : JSU) : bool :=
  existsb (fun s => isString s (coalesce (getPropOpt c "finishReason") (JStr "")))
          ["SAFETY"; "OTHER"].

Definition partsLengthIsZero (c : JSU) : bool :=
  isZero (getPropOpt (getPropOpt (getPropOpt c "content") "parts") "length").

(** The candidate carries no content part at all: the [parts] that line
    37 reads, [c.content?.parts || []], has no first element. *)
Definition carriesNoParts (c : JSU) : bool :=
  match getFirst (orElse (getPropOpt (getPropOpt c "content") "parts")
                         (Some (JArr []))) with
  | Normal None => true
  | _ => false
  end.

(** ** [googleAIToOpenAI] *)

Definition warningPrefix : string :=
  "[Proxy Warning] Gemini safety filter triggered: ".

(** [content.replace(/^(.*?): /, "").trim()]; a [content] that is not a
    string has no callable [replace]. *)
Definition stripSpeaker (content : JSValue) : Completion JSValue :=
  match content with
  | JStr s => Normal (JStr (trim (replaceSpeaker s)))
  | _ => Throw TypeError
  end.

(** Lines 37 and 38: the text of the first part of the first candidate. *)
Definition extractText (completionEvent : JSU) : Completion JSValue :=
  c <- firstCandidate completionEvent ;;
  content0 <- getProp c "content" ;;
  let parts := orElse (getPropOpt content0 "parts") (Some (JArr [])) in
  part <- getFirst parts ;;
  Normal (coalesce (getPropOpt part "text") (JStr "")).

(** Lines 40 to 44: the safety-block override. *)
Definition overrideOnSafetyStop (completionEvent : JSU) (content : JSValue)
  : Completion JSValue :=
  safety <- isSafetyStop completionEvent ;;
  if safety then
    c <- firstCandidate completionEvent ;;
    safetyRatings <- getProp c "safetyRatings" ;;
    Normal (JStr (warningPrefix ++ stringifyInTemplate safetyRatings))
  else Normal content.

(** Lines 37 to 66: what happens once [completionEvent] is there. *)
Definition transform (params : Params) (completionEvent : JSU) (now : Z)
  : Completion Output :=
  content <- extractText completionEvent ;;
  content <- overrideOnSafetyStop completionEvent content ;;
  content <- (if p_index params =? 0 then stripSpeaker content
              else Normal content) ;;
  c <- firstCandidate completionEvent ;;
  finishReason <- getProp c "finishReason" ;;
  let newEvent :=
    mkChunk ("goo-" ++ fallbackId params)
            "chat.completion.chunk"
            now
            (fallbackModel params)
            [mkChoice 0 content (coalesce finishReason JNull)] in
  Normal (mkOutput (-1) (Some newEvent)).

Definition googleAIToOpenAI (params : Params) (now : Z)
  : list LogEntry * Completion Output :=
  let rawEvent := parseEvent (p_data params) in
  if isEmpty (data rawEvent) || String.eqb (data rawEvent) "[DONE]"
  then ([], Normal skip)
  else
    let '(logs, completionEvent) := asCompletion rawEvent in
    if negb (truthy completionEvent) then (logs, Normal skip)
    else (logs, transform params completionEvent now).

(** The [delta.content] of the chunk an output carries. *)
Definition emittedContent (o : Output) : option JSValue :=
  match event o with
  | Some chunk =>
      match choices chunk with
      | ch :: _ => Some (delta_content ch)
      | [] => None
      end
  | None => None
  end.

End WithParsers.

End Transcoder.

(* ================================================================== *)
(** * Executable parsers, for running the transcoder on frame texts    *)
(* ================================================================== *)

Module Parse.
Import JS.

(** ** [JSON.parse] *)

(** JSON white space: space, TAB, LF, CR. *)
Definition isJsonWs (c : ascii) : bool :=
  let n := code c in
  (n =? 32)%nat || (n =? 9)%nat || (n =? 10)%nat || (n =? 13)%nat.

Fixpoint skipWs (s : string) : string :=
  match s with
  | String c r => if isJsonWs c then skipWs r else s
  | EmptyString => EmptyString
  end.

Definition isDigit (c : ascii) : bool :=
  let n := code c in ((48 <=? n) && (n <=? 57))%nat.

Definition digitValue (c : ascii) : Z := Z.of_nat (code c) - 48.

Definition hexValue (c : ascii) : option nat :=
  let n := code c in
  if ((48 <=? n) && (n <=? 57))%nat then Some (n - 48)%nat
  else if ((97 <=? n) && (n <=? 102))%nat then Some (n - 87)%nat
  else if ((65 <=? n) && (n <=? 70))%nat then Some (n - 55)%nat
  else None.

(** The digits at the head of [s], as a number, and the rest of [s]. *)
Fixpoint readDigits (s : string) (acc : Z) : Z * string :=
  match s with
  | String c r => if isDigit c then readDigits r (10 * acc + digitValue c)
                  else (acc, s)
  | EmptyString => (acc, s)
  end.

(** A number literal without fraction or exponent; a leading zero is
    followed by no digit. *)
Definition readInt (s : string) : option (Z * string) :=
  match s with
  | String c r =>
      if Ascii.eqb c "0" then
        match r with
        | String d _ => if isDigit d then None else Some (0, r)
        | EmptyString => Some (0, r)
        end
      else if isDigit c then Some (readDigits s 0)
      else None
  | EmptyString => None
  end.

Definition readNumber (s : string) : option (JSValue * string) :=
  let result (sign : Z) (x : option (Z * string)) :=
    match x with
    | Some (n, String c _ as rest) =>
        if Ascii.eqb c "." || Ascii.eqb c "e" || Ascii.eqb c "E" then None
        else Some (JNum (sign * n), rest)
    | Some (n, rest) => Some (JNum (sign * n), rest)
    | None => None
    end in
  match s with
  | String "-" r => result (-1) (readInt r)
  | _ => result 1 (readInt s)
  end.

(** The characters of a string literal after its opening quote, up to the
    closing quote; escapes are decoded. *)
Fixpoint readString (s : string) : option (string * string) :=
  match s with
  | EmptyString => None
  | String c r =>
      if (code c =? 34)%nat then Some ("", r)
      else if (code c <? 32)%nat then None
      else if (code c =? 92)%nat then
        match r with
        | String e r' =>
            let simple (ch : ascii) :=
              match readString r' with
              | Some (t, rest) => Some (String ch t, rest)
              | None => None
              end in
            if (code e =? 34)%nat then simple e
            else if Ascii.eqb e "\" then simple e
            else if Ascii.eqb e "/" then simple e
            else if Ascii.eqb e "b" then simple (ascii_of_nat 8)
            else if Ascii.eqb e "f" then simple (ascii_of_nat 12)
            else if Ascii.eqb e "n" then simple (ascii_of_nat 10)
            else if Ascii.eqb e "r" then simple (ascii_of_nat 13)
            else if Ascii.eqb e "t" then simple (ascii_of_nat 9)
            else if Ascii.eqb e "u" then
              match r' with
              | String h1 (String h2 (String h3 (String h4 r''))) =>
                  match hexValue h1, hexValue h2, hexValue h3, hexValue h4 with
                  | Some 0%nat, Some 0%nat, Some a, Some b =>
                      match readString r'' with
                      | Some (t, rest) =>
                          Some (String (ascii_of_nat (16 * a + b)) t, rest)
                      | None => None
                      end
                  | _, _, _, _ => None
                  end
              | _ => None
              end
            else None
        | EmptyString => None
        end
      else
        match readString r with
        | Some (t, rest) => Some (String c t, rest)
        | None => None
        end
  end.

(** Canonical array indices ("0", "1", ...): an object enumerates these
    first, in ascending order. *)
Definition indexOf (k : string) : option Z :=
  match readInt k with
  | Some (n, EmptyString) => if n <? 4294967295 then Some n else None
  | _ => None
  end.

(** Defining property [k] of an object under construction: a name already
    there keeps its place and takes the new value; a new index goes among
    the indices; any other new name goes last. *)
Fixpoint setProp (k : string) (v : JSValue) (props : list (string * JSValue))
  : list (string * JSValue) :=
  match props with
  | [] => [(k, v)]
  | (k', v') :: rest =>
      if String.eqb k k' then (k, v) :: rest
      else
        let before :=
          match indexOf k, indexOf k' with
          | Some i, Some j => i <? j
          | Some _, None => negb (existsb (fun p => String.eqb k (fst p)) rest)
          | None, _ => false
          end in
        if before then (k, v) :: props else (k', v') :: setProp k v rest
  end.

Fixpoint readValue (fuel : nat) (s : string) : option (JSValue * string) :=
  match fuel with
  | O => None
  | S f =>
      let elements :=
        fix elements (n : nat) (s : string) (acc : list JSValue)
          : option (JSValue * string) :=
          match n with
          | O => None
          | S n' =>
              match readValue f s with
              | Some (v, rest) =>
                  match skipWs rest with
                  | String "," rest' => elements n' rest' (acc ++ [v])%list
                  | String "]" rest' => Some (JArr (acc ++ [v])%list, rest')
                  | _ => None
                  end
              | None => None
              end
          end in
      let members :=
        fix members (n : nat) (s : string) (acc : list (string * JSValue))
          : option (JSValue * string) :=
          match n with
          | O => None
          | S n' =>
              match skipWs s with
              | String q afterQuote =>
                  if (code q =? 34)%nat then
                    match readString afterQuote with
                    | Some (k, rest) =>
                        match skipWs rest with
                        | String ":" rest' =>
                            match readValue f rest' with
                            | Some (v, rest'') =>
                                match skipWs rest'' with
                                | String "," r => members n' r (setProp k v acc)
                                | String "}" r => Some (JObj (setProp k v acc), r)
                                | _ => None
                                end
                            | None => None
                            end
                        | _ => None
                        end
                    | None => None
                    end
                  else None
              | EmptyString => None
              end
          end in
      match skipWs s with
      | EmptyString => None
      | String c r =>
          if (code c =? 34)%nat then
            match readString r with
            | Some (t, rest) => Some (JStr t, rest)
            | None => None
            end
          else if Ascii.eqb c "[" then
            match skipWs r with
            | String "]" rest => Some (JArr [], rest)
            | _ => elements (String.length r) r []
            end
          else if Ascii.eqb c "{" then
            match skipWs r with
            | String "}" rest => Some (JObj [], rest)
            | _ => members (String.length r) r []
            end
          else if startsWith "null" (String c r) then Some (JNull, drop 3 r)
          else if startsWith "true" (String c r) then Some (JBool true, drop 3 r)
          else if startsWith "false" (String c r) then Some (JBool false, drop 4 r)
          else readNumber (String c r)
      end
  end.

(** [JSON.parse] on texts whose numbers have neither fraction nor exponent
    and whose [\u] escapes stay below 256. *)
Definition JSON_parse (s : string) : option JSValue :=
  match readValue (S (String.length s)) s with
  | Some (v, rest) => if isEmpty (skipWs rest) then Some v else None
  | None => None
  end.

(** ** [parseEvent] *)

(** Modelled from the spec: the SSE frame parser ([../parse-sse] is not
    among the sources), which section 2 describes as splitting the raw
    text into [{eventType, data}].  A frame is read line by line; a line
    is [field:value]; the values of the [data] lines are concatenated and
    the [event] line names the type. *)
Fixpoint lines (s : string) (current : string) : list string :=
  match s with
  | EmptyString => [current]
  | String c r =>
      if (code c =? 10)%nat then current :: lines r ""
      else if (code c =? 13)%nat then lines r current
      else lines r (current ++ String c "")
  end.

Fixpoint splitField (line : string) (field : string) : string * string :=
  match line with
  | EmptyString => (field, "")
  | String c r =>
      if Ascii.eqb c ":" then (field, r)
      else splitField r (field ++ String c "")
  end.

Definition parseLine (ev : Transcoder.ServerSentEvent) (line : string)
  : Transcoder.ServerSentEvent :=
  let '(field, value) := splitField line "" in
  if String.eqb field "data" then
    Transcoder.mkEvent (Transcoder.eventType ev)
                       (Transcoder.data ev ++ trimStart value)
  else if String.eqb field "event" then
    Transcoder.mkEvent (Some (trim value)) (Transcoder.data ev)
  else ev.

Definition parseEvent (raw : string) : Transcoder.ServerSentEvent :=
  fold_left parseLine (lines raw "") (Transcoder.mkEvent None "").

(** No coercion of strings, arrays or objects to numbers is modelled;
    frames whose [candidates] is an array or a string never need one. *)
Definition coercedGt0 (v : JSValue) : Completion bool := Normal false.

(** The transcoder with these parsers plugged in. *)
Definition run (params : Transcoder.Params) (now : Z)
  : list Transcoder.LogEntry * Completion Transcoder.Output :=
  Transcoder.googleAIToOpenAI parseEvent JSON_parse coercedGt0 params now.

End Parse.

(* ================================================================== *)
(** * Sample inputs                                                    *)
(* ================================================================== *)

Module Samples.
Import JS.

Definition sampleKey : Checker.GoogleAIKey :=
  Checker.mkKey "AIzaSyD-example-secret" "goo-5f2c9a1e" false false 1000
                ["gemini-pro"] ["models/gemini-pro"].

(** A failure whose response body is the provider's error envelope
    [{ error: { code, message, status, details } }]. *)
Definition envelope (httpStatus : Z) (message status : string)
    (details : list JSValue) : Checker.AxiosError :=
  Checker.mkAxiosError
    ("Request failed with status code " ++ Number_toString httpStatus)
    (Some (Checker.mkResponse httpStatus
             (Some (JObj [("error",
                           JObj [("code", JNum httpStatus);
                                 ("message", JStr message);
                                 ("status", JStr status);
                                 ("details", JArr details)])])))).

(** A failure whose response body is a page of text, as a gateway in front
    of the provider answers. *)
Definition plainBody (httpStatus : Z) : Checker.AxiosError :=
  Checker.mkAxiosError
    ("Request failed with status code " ++ Number_toString httpStatus)
    (Some (Checker.mkResponse httpStatus
             (Some (JStr "<html><body>Service unavailable</body></html>")))).

Definition timeout : Checker.AxiosError :=
  Checker.mkAxiosError "timeout of 10000ms exceeded" None.

(** The 429 the provider sends for a project whose quota is zero. *)
Definition zeroQuota : Checker.AxiosError :=
  envelope 429 "Resource has been exhausted (e.g. check quota)."
    "RESOURCE_EXHAUSTED"
    [JObj [("@type", JStr "type.googleapis.com/google.rpc.ErrorInfo");
           ("reason", JStr "RATE_LIMIT_EXCEEDED");
           ("metadata",
            JObj [("quota_limit", JStr "GenerateContentRequestsPerMinutePerProjectPerRegion");
                  ("quota_limit_value", JStr "0")])]].

(** The 400 the provider sends for a key it does not know. *)
Definition invalidKey : Checker.AxiosError :=
  envelope 400 "API key not valid. Please pass a valid API key."
    "INVALID_ARGUMENT" [].

Definition quotaMarker : string :=
  dquote ++ "quota_limit_value" ++ dquote ++ ":" ++ dquote ++ "0" ++ dquote.

Definition listed : Checker.Result Checker.ListModelsResponse :=
  Checker.Resolved
    (Checker.mkListModels
       [Checker.mkModelInfo "models/gemini-pro";
        Checker.mkModelInfo "models/gemini-1.5-pro-latest";
        Checker.mkModelInfo "models/gemini-pro"]
       "").

(** A classifier to run the checker with: the family is the model name
    without its [models/] prefix. *)
Definition family (modelName : string) : Checker.GoogleAIModelFamily :=
  if startsWith "models/" modelName then drop 7 modelName else modelName.

Definition ok200 : Checker.HttpOutcome :=
  Checker.Response (Checker.mkResponse 200 (Some (JObj [("candidates", JArr [])]))).

(** The frame [data: <json>]. *)
Definition frame (json : string) : string := "data: " ++ json.

Definition q : string := dquote.

(** [{"candidates":[{"content":{"parts":[{"text":<text>}],"role":"model"},"index":0}]}],
    with [text] already escaped for JSON. *)
Definition textFrame (text : string) : string :=
  frame ("{" ++ q ++ "candidates" ++ q ++ ":[{" ++ q ++ "content" ++ q ++ ":{"
         ++ q ++ "parts" ++ q ++ ":[{" ++ q ++ "text" ++ q ++ ":" ++ q ++ text ++ q
         ++ "}]," ++ q ++ "role" ++ q ++ ":" ++ q ++ "model" ++ q ++ "},"
         ++ q ++ "index" ++ q ++ ":0}]}").

Definition ratingsJson : string :=
  "[{" ++ q ++ "category" ++ q ++ ":" ++ q ++ "HARM_CATEGORY_HARASSMENT" ++ q ++ ","
  ++ q ++ "probability" ++ q ++ ":" ++ q ++ "HIGH" ++ q ++ "}]".

(** A safety stop with an empty [parts] array. *)
Definition safetyFrameEmptyParts : string :=
  frame ("{" ++ q ++ "candidates" ++ q ++ ":[{" ++ q ++ "content" ++ q ++ ":{"
         ++ q ++ "parts" ++ q ++ ":[]," ++ q ++ "role" ++ q ++ ":" ++ q ++ "model" ++ q
         ++ "}," ++ q ++ "finishReason" ++ q ++ ":" ++ q ++ "SAFETY" ++ q ++ ","
         ++ q ++ "index" ++ q ++ ":0," ++ q ++ "safetyRatings" ++ q ++ ":"
         ++ ratingsJson ++ "}]}").

(** A safety stop whose candidate has no [content] at all. *)
Definition safetyFrameNoContent : string :=
  frame ("{" ++ q ++ "candidates" ++ q ++ ":[{"
         ++ q ++ "finishReason" ++ q ++ ":" ++ q ++ "SAFETY" ++ q ++ ","
         ++ q ++ "index" ++ q ++ ":0," ++ q ++ "safetyRatings" ++ q ++ ":"
         ++ ratingsJson ++ "}]}").

(** [{"candidates":[null]}]. *)
Definition nullCandidateFrame : string :=
  frame ("{" ++ q ++ "candidates" ++ q ++ ":[null]}").

(** [{"candidates":[{"content":{"parts":[{"text":5}]}}]}]. *)
Definition numberTextFrame : string :=
  frame ("{" ++ q ++ "candidates" ++ q ++ ":[{" ++ q ++ "content" ++ q ++ ":{"
         ++ q ++ "parts" ++ q ++ ":[{" ++ q ++ "text" ++ q ++ ":5}]}}]}").

Definition params (raw : string) (i : Z) : Transcoder.Params :=
  Transcoder.mkParams raw i "cmpl-42" "gemini-pro".

End Samples.

(* ================================================================== *)
(** * More readings of a trace                                         *)
(* ================================================================== *)

Module Trace.
Import JS Checker.

(** The requests of a trace, in order. *)
Definition requests (t : list Effect) : list string :=
  flat_map (fun e => match e with
                     | HttpGet url => ["GET " ++ url]
                     | HttpPost url _ => ["POST " ++ url]
                     | _ => []
                     end) t.

End Trace.

(* ================================================================== *)
(** * The output that carries a chunk                                  *)
(* ================================================================== *)

Module Emitted.
Import JS Transcoder.

(** The object built at lines 52 to 66 around a content and a finish
    reason. *)
Definition chunkOutput (params : Params) (now : Z)
    (content finishReason : JSValue) : Output :=
  mkOutput (-1)
    (Some (mkChunk ("goo-" ++ fallbackId params)
                   "chat.completion.chunk"
                   now
                   (fallbackModel params)
                   [mkChoice 0 content finishReason])).

(** The content after the lines 37 to 44. *)
Definition contentAfterOverride (completionEvent : JSU) : Completion JSValue :=
  bind (extractText completionEvent) (overrideOnSafetyStop completionEvent).

End Emitted.

(* ================================================================== *)
(** * The lexical structure of a serialized value                      *)
(* ================================================================== *)

Module Lex.
Import JS.

(** Where a reader of JSON text stands: outside any string literal, inside
    one, or inside one just after a backslash. *)
Inductive State : Type := Outside | Inside | Escaped.

(** One character.  Outside a string literal the text that
    [JSON.stringify] writes holds brackets, braces, commas, colons, digits,
    the minus sign and the letters of [null], [true] and [false]: never a
    slash and never the letter q, which are refused there. *)
Definition step (st : State) (c : ascii) : option State :=
  match st with
  | Outside =>
      if (code c =? 34)%nat then Some Inside
      else if Ascii.eqb c "/" || Ascii.eqb c "q" then None
      else Some Outside
  | Inside =>
      if Ascii.eqb c "\" then Some Escaped
      else if (code c =? 34)%nat then Some Outside
      else Some Inside
  | Escaped => Some Inside
  end.

Fixpoint scan (st : State) (s : string) : option State :=
  match s with
  | EmptyString => Some st
  | String c r =>
      match step st c with
      | Some st' => scan st' r
      | None => None
      end
  end.

End Lex.

(* ================================================================== *)
(** * Facts about the JavaScript fragment                              *)
(* ================================================================== *)

Module JSFacts.
Import JS.

Lemma startsWith_refl (s r : string) : startsWith s (s ++ r) = true.
Proof.
  induction s as [|c s IH]; simpl; [reflexivity|].
  now rewrite Ascii.eqb_refl.
Qed.

Lemma startsWith_app_l (n m s : string) :
  startsWith (n ++ m) s = true -> startsWith n s = true.
Proof.
  revert s; induction n as [|c n IH]; intros s H; simpl in *; [reflexivity|].
  destruct s as [|d s]; [discriminate|].
  apply andb_true_iff in H as [Hc Hs].
  rewrite Hc; simpl; auto.
Qed.

Lemma startsWith_toLower (n s : string) :
  startsWith n s = true -> startsWith (toLower n) (toLower s) = true.
Proof.
  revert s; induction n as [|c n IH]; intros s H; simpl in *; [reflexivity|].
  destruct s as [|d s]; [discriminate|].
  apply andb_true_iff in H as [Hc Hs].
  apply Ascii.eqb_eq in Hc; subst d; simpl.
  rewrite Ascii.eqb_refl; simpl; auto.
Qed.

Lemma includes_startsWith (n s : string) :
  startsWith n s = true -> includes n s = true.
Proof.
  intros H; destruct s; simpl in *; rewrite H; reflexivity.
Qed.

Lemma includes_tail (n : string) (c : ascii) (s : string) :
  includes n s = true -> includes n (String c s) = true.
Proof.
  intros H; simpl; rewrite H; apply orb_true_r.
Qed.

(** A text that holds [n ++ m] holds [n]. *)
Lemma includes_app_l (n m s : string) :
  includes (n ++ m) s = true -> includes n s = true.
Proof.
  induction s as [|c s IH]; simpl; intros H.
  - apply orb_true_iff in H as [H|H]; [|discriminate].
    apply startsWith_app_l in H; rewrite H; reflexivity.
  - apply orb_true_iff in H as [H|H].
    + apply startsWith_app_l in H; rewrite H; reflexivity.
    + rewrite (IH H); apply orb_true_r.
Qed.

(** A text that holds [c :: n] holds [n]. *)
Lemma includes_cons_l (c : ascii) (n s : string) :
  includes (String c n) s = true -> includes n s = true.
Proof.
  induction s as [|d s IH]; simpl; intros H.
  - discriminate.
  - apply orb_true_iff in H as [H|H].
    + apply andb_true_iff in H as [_ H].
      apply includes_tail, includes_startsWith, H.
    + apply includes_tail, IH, H.
Qed.

(** Ignoring case only adds matches. *)
Lemma includes_toLower (n s : string) :
  includes n s = true -> includes (toLower n) (toLower s) = true.
Proof.
  induction s as [|c s IH]; simpl; intros H.
  - apply orb_true_iff in H as [H|H]; [|discriminate].
    apply startsWith_toLower in H; simpl in H; rewrite H; reflexivity.
  - apply orb_true_iff in H as [H|H].
    + apply startsWith_toLower in H; simpl in H; rewrite H; reflexivity.
    + rewrite (IH H); apply orb_true_r.
Qed.

(** A pattern held between slashes, flag [i] behind: when the text holds
    the whole literal, the regular expression finds its source. *)
Lemma literal_implies_test (src text : string) :
  includes (RegExp_toString (mkRegExp src "i")) text = true ->
  RegExp_test (mkRegExp src "i") text = true.
Proof.
  unfold RegExp_toString, RegExp_test; simpl source; simpl flags.
  intros H.
  change (includes "i" "i") with true; cbv iota.
  apply includes_toLower.
  apply includes_cons_l in H.
  apply (includes_app_l src "/i"), H.
Qed.

Lemma includes_refl (s : string) : includes s s = true.
Proof.
  apply includes_startsWith.
  induction s as [|c s IH]; simpl; [reflexivity|].
  now rewrite Ascii.eqb_refl.
Qed.

(** A text holds its own suffixes. *)
Lemma includes_app_r (p n : string) : includes n (p ++ n) = true.
Proof.
  induction p as [|c p IH]; simpl.
  - destruct n; apply includes_refl.
  - rewrite IH; apply orb_true_r.
Qed.

(** ** [trim] *)

Lemma firstChar_trimStart (s : string) :
  notWhiteSpace (firstChar (trimStart s)) = true.
Proof.
  induction s as [|c s IH]; simpl; [reflexivity|].
  destruct (isWhiteSpace c) eqn:E; [exact IH|].
  simpl; now rewrite E.
Qed.

Lemma lastChar_trimEnd (s : string) :
  notWhiteSpace (lastChar (trimEnd s)) = true.
Proof.
  induction s as [|c s IH]; simpl; [reflexivity|].
  destruct (trimEnd s) as [|d t] eqn:E; simpl.
  - rewrite andb_true_r; destruct (isWhiteSpace c) eqn:Ec; simpl;
      [reflexivity | now rewrite Ec].
  - rewrite andb_false_r; exact IH.
Qed.

Lemma firstChar_trimEnd (s : string) :
  notWhiteSpace (firstChar s) = true ->
  notWhiteSpace (firstChar (trimEnd s)) = true.
Proof.
  destruct s as [|c s]; simpl; [reflexivity|].
  intros H; destruct (isWhiteSpace c) eqn:E; [discriminate|].
  simpl; now rewrite E.
Qed.

(** The result of [trim] has no white space at either end. *)
Lemma isTrimmed_trim (s : string) : isTrimmed (trim s) = true.
Proof.
  unfold isTrimmed, trim.
  rewrite (firstChar_trimEnd _ (firstChar_trimStart s)), lastChar_trimEnd.
  reflexivity.
Qed.

Lemma trimStart_fixed (s : string) :
  notWhiteSpace (firstChar s) = true -> trimStart s = s.
Proof.
  destruct s as [|c s]; simpl; [reflexivity|].
  destruct (isWhiteSpace c); [discriminate | reflexivity].
Qed.

Lemma trimEnd_fixed (s : string) :
  notWhiteSpace (lastChar s) = true -> trimEnd s = s.
Proof.
  induction s as [|c s IH]; [reflexivity|].
  intros H; cbn [trimEnd].
  destruct s as [|d t].
  - simpl in *; destruct (isWhiteSpace c); [discriminate | reflexivity].
  - rewrite (IH H); simpl; rewrite andb_false_r; reflexivity.
Qed.

(** [trim] leaves alone a string with no white space at either end. *)
Lemma trim_fixed (s : string) : isTrimmed s = true -> trim s = s.
Proof.
  unfold isTrimmed, trim; intros H.
  apply andb_true_iff in H as [Hf Hl].
  rewrite (trimStart_fixed s Hf); apply trimEnd_fixed, Hl.
Qed.

(** ** The speaker pattern *)

Lemma startsWith_two (a b : ascii) (s : string) :
  startsWith (String a (String b "")) s = true
  <-> exists r, s = String a (String b r).
Proof.
  split.
  - destruct s as [|x [|y r]]; cbn [startsWith]; intros H;
      try discriminate.
    + rewrite andb_false_r in H; discriminate.
    + apply andb_true_iff in H as [Hx H].
      apply andb_true_iff in H as [Hy _].
      apply Ascii.eqb_eq in Hx, Hy; subst; now exists r.
  - intros [r ->]; cbn [startsWith]; now rewrite !Ascii.eqb_refl.
Qed.

Lemma includes_here (n s : string) :
  includes n s = false -> startsWith n s = false.
Proof.
  destruct s; cbn [includes]; intros H; apply orb_false_iff in H; apply H.
Qed.

Lemma includes_tail_false (n : string) (c : ascii) (s : string) :
  includes n (String c s) = false -> includes n s = false.
Proof.
  cbn [includes]; intros H; apply orb_false_iff in H; apply H.
Qed.

Lemma startsWith_sep_false (run rest : string) :
  run <> EmptyString ->
  includes ": " run = false ->
  startsWith ": " (run ++ ": " ++ rest) = false.
Proof.
  intros Hne Hi; apply includes_here in Hi.
  destruct (startsWith ": " (run ++ ": " ++ rest)) eqn:E; [|reflexivity].
  apply startsWith_two in E as [r E].
  destruct run as [|c [|d run]]; [congruence| |].
  - cbn [append] in E; discriminate.
  - cbn [append] in E; injection E as -> -> _.
    rewrite <- Hi; symmetry; apply startsWith_two; now exists run.
Qed.

(** A run on one line that holds no [": "] is what [(.*?)] takes. *)
Lemma afterSpeaker_run (run rest : string) :
  includes ": " run = false ->
  onOneLine run = true ->
  afterSpeaker (run ++ ": " ++ rest) = Some rest.
Proof.
  induction run as [|c run IH]; intros Hi Hl; [reflexivity|].
  pose proof (startsWith_sep_false (String c run) rest ltac:(discriminate) Hi)
    as Hs.
  cbn [onOneLine] in Hl; apply andb_true_iff in Hl as [Hc Hl].
  apply negb_true_iff in Hc.
  change (String c run ++ ": " ++ rest) with (String c (run ++ ": " ++ rest))
    in Hs |- *.
  cbn [afterSpeaker]; rewrite Hs, Hc.
  apply IH; [apply (includes_tail_false _ c), Hi | exact Hl].
Qed.

(** A line break before the first [": "] stops [.] and the match fails. *)
Lemma afterSpeaker_line_break (run rest : string) :
  includes ": " run = false ->
  onOneLine run = false ->
  afterSpeaker (run ++ ": " ++ rest) = None.
Proof.
  induction run as [|c run IH]; intros Hi Hl; [discriminate|].
  pose proof (startsWith_sep_false (String c run) rest ltac:(discriminate) Hi)
    as Hs.
  change (String c run ++ ": " ++ rest) with (String c (run ++ ": " ++ rest))
    in Hs |- *.
  cbn [afterSpeaker]; rewrite Hs.
  destruct (isLineTerminator c) eqn:Hc; [reflexivity|].
  cbn [onOneLine] in Hl; rewrite Hc in Hl; cbn [negb andb] in Hl.
  apply IH; [apply (includes_tail_false _ c), Hi | exact Hl].
Qed.

(** Without any [": "] the pattern does not match. *)
Lemma afterSpeaker_none (s : string) :
  includes ": " s = false -> afterSpeaker s = None.
Proof.
  induction s as [|c s IH]; intros Hi; [reflexivity|].
  cbn [afterSpeaker].
  rewrite (includes_here _ _ Hi).
  destruct (isLineTerminator c);
    [reflexivity | apply IH, (includes_tail_false _ c), Hi].
Qed.

(** ** [JSON.stringify] *)

Lemma lastChar_app_char (s : string) (c : ascii) :
  lastChar (s ++ String c "") = Some c.
Proof.
  induction s as [|d s IH]; [reflexivity|].
  simpl; rewrite IH.
  destruct (s ++ String c "") eqn:E; [|reflexivity].
  destruct s; discriminate.
Qed.

Lemma lastChar_app_assoc (a b : string) (c : ascii) :
  lastChar (a ++ b ++ String c "") = Some c.
Proof.
  replace (a ++ b ++ String c "") with ((a ++ b) ++ String c "").
  - apply lastChar_app_char.
  - induction a as [|x a IH]; simpl; [reflexivity | now rewrite IH].
Qed.

Lemma digitChar_notWhiteSpace (n : Z) :
  isWhiteSpace (digitChar (n mod 10)) = false.
Proof.
  pose proof (Z.mod_pos_bound n 10 ltac:(lia)) as H.
  remember (n mod 10) as d eqn:Hd; clear Hd.
  destruct d as [|p|p]; [reflexivity| |lia].
  do 4 (destruct p as [p|p|]; try lia; try reflexivity).
Qed.

Lemma digits_first (fuel : nat) (n : Z) (acc : string) :
  exists m rest, digits fuel n acc = String (digitChar (m mod 10)) rest.
Proof.
  revert n acc; induction fuel as [|f IH]; intros n acc; cbn [digits].
  - eexists; eexists; reflexivity.
  - destruct (n <? 10); [eexists; eexists; reflexivity | apply IH].
Qed.

Lemma lastChar_cons (c : ascii) (s : string) :
  s <> EmptyString -> lastChar (String c s) = lastChar s.
Proof. destruct s; [congruence | reflexivity]. Qed.

Lemma digits_last (fuel : nat) (n : Z) (acc : string) :
  acc <> EmptyString -> lastChar (digits fuel n acc) = lastChar acc.
Proof.
  revert n acc; induction fuel as [|f IH]; intros n acc H; cbn [digits].
  - now apply lastChar_cons.
  - destruct (n <? 10).
    + now apply lastChar_cons.
    + rewrite IH by discriminate. now apply lastChar_cons.
Qed.

Lemma digits_trimmed (fuel : nat) (n : Z) :
  notWhiteSpace (firstChar (digits fuel n "")) = true
  /\ notWhiteSpace (lastChar (digits fuel n "")) = true.
Proof.
  split.
  - destruct (digits_first fuel n "") as [m [rest ->]]; cbn [firstChar notWhiteSpace].
    now rewrite digitChar_notWhiteSpace.
  - destruct fuel as [|f]; cbn [digits].
    + cbn [lastChar notWhiteSpace]; now rewrite digitChar_notWhiteSpace.
    + destruct (n <? 10).
      * cbn [lastChar notWhiteSpace]; now rewrite digitChar_notWhiteSpace.
      * rewrite digits_last by discriminate; cbn [lastChar notWhiteSpace].
        now rewrite digitChar_notWhiteSpace.
Qed.

(** A serialized value has no white space at either end. *)
Lemma stringify_trimmed (v : JSValue) : isTrimmed (stringify v) = true.
Proof.
  unfold isTrimmed; destruct v as [|[]|n|s|xs|props];
    [reflexivity | reflexivity | reflexivity | | | | ].
  - cbn [stringify]; unfold Number_toString.
    destruct (n <? 0).
    + destruct (digits_trimmed (Z.to_nat (Z.log2 (- n))) (- n)) as [_ Hl].
      destruct (digits_first (Z.to_nat (Z.log2 (- n))) (- n) "") as [m [r E]].
      cbn [firstChar notWhiteSpace]; rewrite lastChar_cons;
        [rewrite Hl; reflexivity | rewrite E; discriminate].
    + destruct (digits_trimmed (Z.to_nat (Z.log2 n)) n) as [Hf Hl].
      now rewrite Hf, Hl.
  - cbn [stringify]; unfold quote.
    change (dquote ++ escape s ++ dquote)
      with (String "034" (escape s ++ String "034" "")).
    rewrite lastChar_cons; [|destruct (escape s); discriminate].
    cbn [firstChar]; rewrite lastChar_app_char; reflexivity.
  - cbn [stringify].
    change ("[" ++ join "," (map stringify xs) ++ "]")
      with (String "[" (join "," (map stringify xs) ++ String "]" "")).
    rewrite lastChar_cons;
      [|destruct (join "," (map stringify xs)); discriminate].
    cbn [firstChar]; rewrite lastChar_app_char; reflexivity.
  - cbn [stringify].
    match goal with
    | |- context [ "{" ++ ?body ++ "}" ] =>
        change ("{" ++ body ++ "}") with (String "{" (body ++ String "}" ""));
        rewrite lastChar_cons; [|destruct body; discriminate];
        cbn [firstChar]; rewrite lastChar_app_char; reflexivity
    end.
Qed.

Lemma stringify_not_empty (v : JSValue) : stringify v <> EmptyString.
Proof.
  destruct v as [|[]|n|s|xs|props]; cbn [stringify];
    [discriminate | discriminate | discriminate | | discriminate
     | discriminate | discriminate].
  unfold Number_toString; destruct (n <? 0); [discriminate|].
  destruct (digits_first (Z.to_nat (Z.log2 n)) n "") as [m [r ->]].
  discriminate.
Qed.

Lemma stringifyInTemplate_trimmed (v : JSU) :
  isTrimmed (stringifyInTemplate v) = true.
Proof. destruct v; [apply stringify_trimmed | reflexivity]. Qed.

Lemma stringifyInTemplate_not_empty (v : JSU) :
  stringifyInTemplate v <> EmptyString.
Proof. destruct v; [apply stringify_not_empty | discriminate]. Qed.

End JSFacts.

(* ================================================================== *)
(** * The key checker: error classification                            *)
(* ================================================================== *)

Module CheckerFacts.
Import JS Checker.

Section Classification.

Variable updateKey : string -> Patch -> GoogleAIKey -> GoogleAIKey.

Lemma hasEnvelope_false (error : AxiosError) :
  hasEnvelope error = false <->
  response error = None \/ truthy (errorIsGoogleAIError error) = false.
Proof.
  unfold hasEnvelope; destruct (response error) as [r|].
  - split; [now right | intros [H|H]; [discriminate | exact H]].
  - split; [now left | reflexivity].
Qed.

Ltac run_handler :=
  unfold handleAxiosError, action, updates; simpl;
  rewrite ?String.eqb_refl; simpl;
  unfold dueTime, KEY_CHECK_PERIOD.

(** Without an envelope the handler takes the lines 162 to 168. *)
Lemma handle_without_envelope (k : GoogleAIKey) (error : AxiosError) (now : Z) :
  hasEnvelope error = false ->
  fst (handleAxiosError updateKey k error now)
  = [Log LError
       [("key", Some (JStr (hash k))); ("error", Some (JStr (message error)))]
       "Network error while checking key; trying this key again in a minute.";
     UpdateKey (hash k) (setLastChecked (now - (KEY_CHECK_PERIOD - 10 * 1000)))].
Proof.
  unfold hasEnvelope, handleAxiosError; intros H.
  destruct (response error) as [r|]; [rewrite H|]; reflexivity.
Qed.

(** With an envelope the handler follows the switch on the HTTP status;
    the action is the one of the policy table, the two pattern tests being
    the ones the code computes. *)
Lemma handle_with_envelope (k : GoogleAIKey) (error : AxiosError)
    (resp : AxiosResponse) (now : Z) :
  response error = Some resp ->
  truthy (errorIsGoogleAIError error) = true ->
  action now (hash k) (fst (handleAxiosError updateKey k error now))
  = Some (policyTable (status resp)
            (matchesJoined (errorText error) keyDeadMsgs400)
            (matchesJoined (errorText error) keyDeadMsgs429)).
Proof.
  intros Hr Ht.
  unfold handleAxiosError, errorText, policyTable; rewrite Hr, Ht.
  destruct (status resp =? 400).
  - destruct (matchesJoined _ keyDeadMsgs400); run_handler;
      [reflexivity | f_equal; f_equal; lia].
  - destruct ((status resp =? 401) || (status resp =? 403)).
    + run_handler; reflexivity.
    + destruct (status resp =? 429).
      * destruct (matchesJoined _ keyDeadMsgs429); run_handler;
          [reflexivity | f_equal; f_equal; lia].
      * run_handler; f_equal; f_equal; lia.
Qed.

Lemma action_without_envelope (k : GoogleAIKey) (error : AxiosError) (now : Z) :
  hasEnvelope error = false ->
  action now (hash k) (fst (handleAxiosError updateKey k error now))
  = Some (RecheckIn (10 * 1000)).
Proof.
  intros H; rewrite (handle_without_envelope k error now H).
  run_handler; f_equal; f_equal; lia.
Qed.

(** The table never asks for a recheck ten seconds later. *)
Lemma policyTable_not_ten_seconds (s : Z) (a b : bool) :
  policyTable s a b <> RecheckIn (10 * 1000).
Proof.
  unfold policyTable, KEY_CHECK_PERIOD.
  destruct (s =? 400), a, ((s =? 401) || (s =? 403)), (s =? 429), b;
    discriminate.
Qed.

(** The literal-text test the code performs is at most the test the
    patterns would perform as regular expressions. *)
Lemma matchesJoined_implies_matchesSome400 (text : string) :
  matchesJoined text keyDeadMsgs400 = true ->
  matchesSome text keyDeadMsgs400 = true.
Proof.
  unfold matchesJoined, matchesSome, keyDeadMsgs400; intros H.
  cbn [existsb].
  change (includes "/please enable billing/i" text
          || (includes "/API key not valid/i" text
              || (includes "/API key expired/i" text
                  || (includes "/pass a valid API/i" text || false))) = true)
    in H.
  rewrite orb_false_r in H |- *.
  apply orb_true_iff in H as [H|H];
    [apply (JSFacts.literal_implies_test "please enable billing") in H;
     rewrite H; reflexivity|].
  apply orb_true_iff in H as [H|H];
    [apply (JSFacts.literal_implies_test "API key not valid") in H;
     rewrite H; apply orb_true_r|].
  apply orb_true_iff in H as [H|H];
    [apply (JSFacts.literal_implies_test "API key expired") in H;
     rewrite H; rewrite !orb_true_r; reflexivity|].
  apply (JSFacts.literal_implies_test "pass a valid API") in H.
  rewrite H; rewrite !orb_true_r; reflexivity.
Qed.

(** Every alternative of the joined pattern begins with a slash: a text
    without a slash passes neither test. *)
Lemma matchesJoined_needs_slash (text : string) :
  includes "/" text = false ->
  matchesJoined text keyDeadMsgs400 = false
  /\ matchesJoined text keyDeadMsgs429 = false.
Proof.
  intros Hs.
  assert (H : forall rest, includes (String "/" rest) text = false).
  { intros rest; destruct (includes (String "/" rest) text) eqn:E;
      [|reflexivity].
    apply (JSFacts.includes_app_l "/" rest) in E; congruence. }
  unfold matchesJoined, String_match.
  split.
  - change (alternatives (join "|" (map RegExp_toString keyDeadMsgs400)))
      with (Some [String "/" "please enable billing/i";
                  String "/" "API key not valid/i";
                  String "/" "API key expired/i";
                  String "/" "pass a valid API/i"]).
    cbn [existsb]; now rewrite !H.
  - match goal with
    | |- context [alternatives ?p] =>
        let r := eval vm_compute in (alternatives p) in
        change (alternatives p) with r
    end.
    cbn [existsb]; now rewrite !H.
Qed.

End Classification.

(** What [text.match] receives for the two pattern lists: the literals,
    slashes and flag included, separated by bars. *)
Lemma joined_patterns :
  join "|" (map RegExp_toString keyDeadMsgs400)
  = "/please enable billing/i|/API key not valid/i|/API key expired/i|/pass a valid API/i"
  /\ join "|" (map RegExp_toString keyDeadMsgs429)
     = "/GenerateContentRequestsPerMinutePerProjectPerRegion/i|/"
       ++ Samples.quotaMarker ++ "/i".
Proof. split; reflexivity. Qed.

(** The literal-text test of the 429 patterns is at most the test the
    patterns would perform as regular expressions. *)
Lemma matchesJoined_implies_matchesSome429 (text : string) :
  matchesJoined text keyDeadMsgs429 = true ->
  matchesSome text keyDeadMsgs429 = true.
Proof.
  unfold matchesJoined, matchesSome, keyDeadMsgs429; intros H.
  cbn [existsb].
  change (includes
            (RegExp_toString
               (mkRegExp "GenerateContentRequestsPerMinutePerProjectPerRegion" "i"))
            text
          || (includes
                (RegExp_toString
                   (mkRegExp (dquote ++ "quota_limit_value" ++ dquote ++ ":"
                              ++ dquote ++ "0" ++ dquote) "i"))
                text
              || false) = true)
    in H.
  rewrite orb_false_r in H |- *.
  apply orb_true_iff in H as [H|H];
    apply JSFacts.literal_implies_test in H; rewrite H;
    [reflexivity | apply orb_true_r].
Qed.

(** C1, as amended.  [handleAxiosError] takes the network-error action
    (one patch that leaves [isDisabled] and [isRevoked] alone and rewrites
    [lastChecked] so that the key is due 10 seconds after now) exactly when
    the failure carries no HTTP response or carries one whose body is not a
    provider error envelope, that is, neither [data.error.code] nor
    [data.error.status] is truthy.  A failure whose response does hold the
    envelope never takes the network-error action; it is classified by its
    HTTP status as the policy table of section 4.2 says, the patterns of
    the table being used as the regular expressions they are written as,
    whenever its status is not 400 or 429 or its serialized error text
    matches none of the patterns of its row.  (Nothing is said here of a
    400 or 429 whose text does match a pattern of its row.)  With the
    pool's update applied, the key is as enabled as before and due at
    [now + 10000]. *)
Theorem handleAxiosError_network_action_iff
    (updateKey : string -> Patch -> GoogleAIKey -> GoogleAIKey)
    (k : GoogleAIKey) (error : AxiosError) (now : Z) :
  (action now (hash k) (fst (handleAxiosError updateKey k error now))
   = Some (RecheckIn (10 * 1000))
   <-> (response error = None \/ truthy (errorIsGoogleAIError error) = false))
  /\ (forall resp,
        response error = Some resp ->
        truthy (errorIsGoogleAIError error) = true ->
        action now (hash k) (fst (handleAxiosError updateKey k error now))
        <> Some (RecheckIn (10 * 1000))
        /\ ((status resp = 400
             -> matchesSome (errorText error) keyDeadMsgs400 = false) ->
            (status resp = 429
             -> matchesSome (errorText error) keyDeadMsgs429 = false) ->
            action now (hash k) (fst (handleAxiosError updateKey k error now))
            = Some (policyTable (status resp)
                      (matchesSome (errorText error) keyDeadMsgs400)
                      (matchesSome (errorText error) keyDeadMsgs429))))
  /\ (response error = None \/ truthy (errorIsGoogleAIError error) = false ->
      let k' := snd (handleAxiosError applyPatch k error now) in
      isDisabled k' = isDisabled k
      /\ isRevoked k' = isRevoked k
      /\ dueTime (lastChecked k') = now + 10 * 1000).
Proof.
  split; [|split].
  - split.
    + intros Ha.
      destruct (response error) as [resp|] eqn:Hr; [|now left].
      destruct (truthy (errorIsGoogleAIError error)) eqn:Ht; [|now right].
      rewrite (handle_with_envelope updateKey k error resp now Hr Ht) in Ha.
      injection Ha as Ha.
      now apply policyTable_not_ten_seconds in Ha.
    + intros H; apply action_without_envelope, hasEnvelope_false, H.
  - intros resp Hr Ht.
    rewrite (handle_with_envelope updateKey k error resp now Hr Ht).
    split.
    + intros Ha; injection Ha as Ha.
      now apply policyTable_not_ten_seconds in Ha.
    + intros H400 H429; f_equal; unfold policyTable.
      destruct (status resp =? 400) eqn:E400.
      * apply Z.eqb_eq in E400; rewrite (H400 E400).
        destruct (matchesJoined (errorText error) keyDeadMsgs400) eqn:Hj;
          [|reflexivity].
        apply matchesJoined_implies_matchesSome400 in Hj.
        rewrite (H400 E400) in Hj; discriminate.
      * destruct ((status resp =? 401) || (status resp =? 403));
          [reflexivity|].
        destruct (status resp =? 429) eqn:E429; [|reflexivity].
        apply Z.eqb_eq in E429; rewrite (H429 E429).
        destruct (matchesJoined (errorText error) keyDeadMsgs429) eqn:Hj;
          [|reflexivity].
        apply matchesJoined_implies_matchesSome429 in Hj.
        rewrite (H429 E429) in Hj; discriminate.
  - intros H; apply hasEnvelope_false in H.
    unfold hasEnvelope in H.
    unfold handleAxiosError.
    destruct (response error) as [r|]; [rewrite H|];
      cbn [snd]; unfold applyPatch; rewrite String.eqb_refl; simpl;
      unfold dueTime, KEY_CHECK_PERIOD; repeat split; lia.
Qed.

(** C1, counterexample.  A failure that carries an HTTP response, status
    401, with a body that is a page of text: the handler logs a network
    error and reschedules the key 10 seconds ahead; the key is not
    retired, as the table's row for 401 would have it. *)
Lemma handleAxiosError_response_takes_network_branch :
  response (Samples.plainBody 401) <> None
  /\ fst (handleAxiosError applyPatch Samples.sampleKey (Samples.plainBody 401) 5000)
     = [Log LError
          [("key", Some (JStr "goo-5f2c9a1e"));
           ("error", Some (JStr "Request failed with status code 401"))]
          "Network error while checking key; trying this key again in a minute.";
        UpdateKey "goo-5f2c9a1e"
                  (setLastChecked (5000 - (KEY_CHECK_PERIOD - 10 * 1000)))]
  /\ action 5000 "goo-5f2c9a1e"
       (fst (handleAxiosError applyPatch Samples.sampleKey (Samples.plainBody 401) 5000))
     <> Some (policyTable 401 false false).
Proof.
  split; [discriminate|split; [reflexivity|]].
  vm_compute; discriminate.
Qed.

(** C3, the code at a zero-quota 429.  The provider's 429 for a project
    with no quota: the serialized error text holds the marker
    ["quota_limit_value":"0"] and the quota name, both patterns of the
    list find it when used as regular expressions, yet the test the code
    performs fails, and the handler reschedules the key 60 seconds ahead
    instead of retiring it. *)
Theorem handleAxiosError_zero_quota_429 (now : Z) :
  includes Samples.quotaMarker (errorText Samples.zeroQuota) = true
  /\ forallb (fun re => RegExp_test re (errorText Samples.zeroQuota))
             keyDeadMsgs429 = true
  /\ matchesJoined (errorText Samples.zeroQuota) keyDeadMsgs429 = false
  /\ action now (hash Samples.sampleKey)
       (fst (handleAxiosError applyPatch Samples.sampleKey Samples.zeroQuota now))
     = Some (RecheckIn (60 * 1000))
  /\ isDisabled (snd (handleAxiosError applyPatch Samples.sampleKey
                                       Samples.zeroQuota now)) = false.
Proof.
  split; [vm_compute; reflexivity|].
  split; [vm_compute; reflexivity|].
  split; [vm_compute; reflexivity|].
  split.
  - rewrite (handle_with_envelope applyPatch Samples.sampleKey Samples.zeroQuota
               _ now eq_refl eq_refl).
    reflexivity.
  - reflexivity.
Qed.

(** C4, as amended.  For a failure whose response holds the provider error
    envelope: HTTP 401 and HTTP 403 retire the key (patch
    [{isDisabled: true, isRevoked: true}]); an HTTP 400 whose serialized
    error text matches none of the dead-key patterns does not retire it and
    reschedules it at the full period; and no status other than 400, 401,
    403 and 429 retires a key.  A failure without the envelope never
    retires the key. *)
Theorem handleAxiosError_retires
    (updateKey : string -> Patch -> GoogleAIKey -> GoogleAIKey)
    (k : GoogleAIKey) (error : AxiosError) (resp : AxiosResponse) (now : Z)
    (Hresp : response error = Some resp) :
  let act := action now (hash k) (fst (handleAxiosError updateKey k error now)) in
  (truthy (errorIsGoogleAIError error) = true ->
   (status resp = 401 \/ status resp = 403 -> act = Some Disable)
   /\ (status resp = 400 ->
       matchesSome (errorText error) keyDeadMsgs400 = false ->
       act = Some (RecheckIn KEY_CHECK_PERIOD))
   /\ (act = Some Disable ->
       status resp = 400 \/ status resp = 401 \/ status resp = 403
       \/ status resp = 429))
  /\ (truthy (errorIsGoogleAIError error) = false -> act <> Some Disable).
Proof.
  intros act; subst act; split.
  - intros Ht.
    rewrite (handle_with_envelope updateKey k error resp now Hresp Ht).
    unfold policyTable.
    split; [|split].
    + intros [H|H]; rewrite H; reflexivity.
    + intros H Hm; rewrite H; simpl.
      destruct (matchesJoined (errorText error) keyDeadMsgs400) eqn:Hj;
        [|reflexivity].
      apply matchesJoined_implies_matchesSome400 in Hj; congruence.
    + destruct (status resp =? 400) eqn:E400; [apply Z.eqb_eq in E400; auto|].
      destruct (status resp =? 401) eqn:E401; [apply Z.eqb_eq in E401; auto|].
      destruct (status resp =? 403) eqn:E403; [apply Z.eqb_eq in E403; auto|].
      destruct (status resp =? 429) eqn:E429; [apply Z.eqb_eq in E429; auto 6|].
      simpl; discriminate.
  - intros Ht.
    rewrite (action_without_envelope updateKey k error now);
      [discriminate|].
    apply hasEnvelope_false; now right.
Qed.

(** C4, the theorem at a 403 with an envelope. *)
Lemma handleAxiosError_retires_witness :
  response (Samples.envelope 403 "The caller does not have permission"
                             "PERMISSION_DENIED" [])
  = Some (mkResponse 403
            (Some (JObj [("error",
                          JObj [("code", JNum 403);
                                ("message", JStr "The caller does not have permission");
                                ("status", JStr "PERMISSION_DENIED");
                                ("details", JArr [])])])))
  /\ action 5000 "goo-5f2c9a1e"
       (fst (handleAxiosError applyPatch Samples.sampleKey
               (Samples.envelope 403 "The caller does not have permission"
                                 "PERMISSION_DENIED" []) 5000))
     = Some Disable.
Proof.
  split; [reflexivity|].
  apply (handleAxiosError_retires applyPatch Samples.sampleKey
           (Samples.envelope 403 "The caller does not have permission"
                             "PERMISSION_DENIED" [])
           _ 5000 eq_refl);
    [reflexivity | right; reflexivity].
Defined.

(** C4, counterexample.  An HTTP 403 whose body is a page of text: the
    key is not retired; the only patch rewrites [lastChecked]. *)
Lemma handleAxiosError_403_not_retired :
  (exists resp, response (Samples.plainBody 403) = Some resp /\ status resp = 403)
  /\ updates (fst (handleAxiosError applyPatch Samples.sampleKey
                                    (Samples.plainBody 403) 5000))
     = [("goo-5f2c9a1e", setLastChecked (5000 - (KEY_CHECK_PERIOD - 10 * 1000)))]
  /\ action 5000 "goo-5f2c9a1e"
       (fst (handleAxiosError applyPatch Samples.sampleKey
                              (Samples.plainBody 403) 5000))
     <> Some Disable
  /\ isDisabled (snd (handleAxiosError applyPatch Samples.sampleKey
                                       (Samples.plainBody 403) 5000)) = false.
Proof.
  split; [eexists; split; reflexivity|].
  split; [reflexivity|].
  split; [vm_compute; discriminate | reflexivity].
Qed.

End CheckerFacts.

(* ================================================================== *)
(** * The key checker: the probe                                       *)
(* ================================================================== *)

Module ProbeFacts.
Import JS Checker.

Section Probe.

Variable getGoogleAIModelFamily : string -> GoogleAIModelFamily.
Variable updateKey : string -> Patch -> GoogleAIKey -> GoogleAIKey.

Abbreviation collect := (collect getGoogleAIModelFamily).
Abbreviation getProvisionedModels :=
  (getProvisionedModels getGoogleAIModelFamily updateKey).

Lemma existsb_eqb_In (x : string) (s : list string) :
  existsb (String.eqb x) s = true <-> In x s.
Proof.
  rewrite existsb_exists; split.
  - intros [y [Hy He]]; apply String.eqb_eq in He; now subst.
  - intros H; exists x; split; [exact H | apply String.eqb_refl].
Qed.

Lemma Set_add_In (x y : string) (s : list string) :
  In y (Set_add x s) <-> y = x \/ In y s.
Proof.
  unfold Set_add; destruct (existsb (String.eqb x) s) eqn:E.
  - apply existsb_eqb_In in E; split; [now right|].
    intros [->|H]; assumption.
  - rewrite in_app_iff; simpl; split.
    + intros [H|[H|[]]]; [now right | now left].
    + intros [->|H]; [right; now left | now left].
Qed.

Lemma Set_add_NoDup (x : string) (s : list string) :
  NoDup s -> NoDup (Set_add x s).
Proof.
  unfold Set_add; intros Hs; destruct (existsb (String.eqb x) s) eqn:E;
    [exact Hs|].
  assert (Hx : ~ In x s).
  { intros H; apply existsb_eqb_In in H; congruence. }
  clear E; induction Hs as [|a l Ha Hl IH]; simpl.
  - constructor; [intros []|constructor].
  - constructor.
    + rewrite in_app_iff; simpl; intros [H|[H|[]]]; [now apply Ha|].
      apply Hx; now left.
    + apply IH; intros H; apply Hx; now right.
Qed.

(** Adding the image of every element of a list to a set. *)
Lemma addAll_In {A : Type} (g : A -> string) (ms : list A) (acc : list string)
    (y : string) :
  In y (fold_left (fun a m => Set_add (g m) a) ms acc)
  <-> In y acc \/ exists m, In m ms /\ g m = y.
Proof.
  revert acc; induction ms as [|m ms IH]; intros acc; simpl.
  - split; [now left | intros [H|[m [[] _]]]; exact H].
  - rewrite IH, Set_add_In; split.
    + intros [[->|H]|[m' [Hm He]]].
      * right; exists m; split; [now left | reflexivity].
      * now left.
      * right; exists m'; split; [now right | exact He].
    + intros [H|[m' [[->|Hm] He]]].
      * left; now right.
      * left; left; now symmetry.
      * right; exists m'; now split.
Qed.

Lemma addAll_NoDup {A : Type} (g : A -> string) (ms : list A)
    (acc : list string) :
  NoDup acc -> NoDup (fold_left (fun a m => Set_add (g m) a) ms acc).
Proof.
  revert acc; induction ms as [|m ms IH]; intros acc H; simpl;
    [exact H | apply IH, Set_add_NoDup, H].
Qed.

(** The loop of [getProvisionedModels] fills the two sets independently. *)
Lemma collect_split (ms : list ModelInfo) (ids fams : list string) :
  fold_left
    (fun acc m =>
       let '(ids, families) := acc in
       let families' := Set_add (getGoogleAIModelFamily (name m)) families in
       (Set_add (name m) ids, families'))
    ms (ids, fams)
  = (fold_left (fun a m => Set_add (name m) a) ms ids,
     fold_left (fun a m => Set_add (getGoogleAIModelFamily (name m)) a) ms fams).
Proof.
  revert ids fams; induction ms as [|m ms IH]; intros ids fams; simpl;
    [reflexivity | apply IH].
Qed.

(** The two sets hold the names listed and their families, each once. *)
Lemma collect_spec (ms : list ModelInfo) :
  (forall x, In x (fst (collect ms)) <-> exists m, In m ms /\ name m = x)
  /\ (forall f, In f (snd (collect ms))
                <-> exists m, In m ms /\ getGoogleAIModelFamily (name m) = f)
  /\ NoDup (fst (collect ms)) /\ NoDup (snd (collect ms)).
Proof.
  unfold Checker.collect; rewrite collect_split; simpl.
  repeat split; try (apply addAll_NoDup; constructor).
  - intros H; apply addAll_In in H as [[]|H]; exact H.
  - intros H; apply addAll_In; now right.
  - intros H; apply addAll_In in H as [[]|H]; exact H.
  - intros H; apply addAll_In; now right.
Qed.

(** The trace and the key after a discovery that succeeds. *)
Lemma getProvisionedModels_resolved (k : GoogleAIKey) (d : ListModelsResponse) :
  let patch := mkPatch None None None (Some (snd (collect (models d))))
                       (Some (fst (collect (models d)))) in
  getProvisionedModels k (Resolved d)
  = ([HttpGet (LIST_MODELS_URL ++ "?pageSize=1000&key=" ++ key k);
      UpdateKey (hash k) patch],
     updateKey (hash k) patch k,
     Resolved (snd (collect (models d)))).
Proof.
  unfold Checker.getProvisionedModels.
  destruct (collect (models d)) as [ids fams]; reflexivity.
Qed.

End Probe.

(** C8.  When capability discovery succeeds, the trace of [testKeyOrFail]
    begins with the listing request, then the patch of the key with both
    the model families and the raw model ids discovered, and only then the
    smoke-test request; the two sets hold exactly the names listed and
    their families.  When the smoke test then fails, these three effects
    are the whole trace: the key has the capability patch applied and
    nothing else. *)
Theorem testKeyOrFail_patches_before_smoke_test
    (getGoogleAIModelFamily : string -> GoogleAIModelFamily)
    (updateKey : string -> Patch -> GoogleAIKey -> GoogleAIKey)
    (k : GoogleAIKey) (d : ListModelsResponse) (answer : HttpOutcome) :
  let ids := fst (collect getGoogleAIModelFamily (models d)) in
  let families := snd (collect getGoogleAIModelFamily (models d)) in
  let patch := mkPatch None None None (Some families) (Some ids) in
  let k1 := updateKey (hash k) patch k in
  let run := testKeyOrFail getGoogleAIModelFamily updateKey k (Resolved d) answer in
  let start :=
    [HttpGet (LIST_MODELS_URL ++ "?pageSize=1000&key=" ++ key k);
     UpdateKey (hash k) patch;
     HttpPost (replaceKey GENERATE_CONTENT_URL (key k1)) payload] in
  (exists rest, fst (fst run) = (start ++ rest)%list)
  /\ (forall x, In x ids <-> exists m, In m (models d) /\ name m = x)
  /\ (forall f, In f families
                <-> exists m, In m (models d)
                              /\ getGoogleAIModelFamily (name m) = f)
  /\ (forall e, snd run = Rejected e ->
                fst (fst run) = start /\ snd (fst run) = k1).
Proof.
  cbv zeta.
  unfold testKeyOrFail.
  rewrite getProvisionedModels_resolved.
  unfold testGenerateContent.
  pose proof (collect_spec getGoogleAIModelFamily (models d)) as [Hi [Hf _]].
  destruct (settle _ answer) as [r|e'] eqn:Hs; cbn [fst snd app].
  - split; [eexists; reflexivity|].
    split; [exact Hi|split; [exact Hf|]].
    intros e H; discriminate.
  - split; [exists []; reflexivity|].
    split; [exact Hi|split; [exact Hf|]].
    intros e _; split; reflexivity.
Qed.


(** The success path of [testKeyOrFail], for every key, listing and
    pool.  The last update
    carries the patch [{ modelFamilies: <the families discovered> }] and
    nothing else: no patch of the run names [lastChecked], and the probe
    reads no clock.  The line logged after it, at level info, records the
    hash, the [modelFamilies] and the number of [modelIds] of the key as
    the update left it.  With the pool's update of section 6 the key ends
    with the families and ids discovered and the [lastChecked] it had. *)
Theorem testKeyOrFail_success
    (getGoogleAIModelFamily : string -> GoogleAIModelFamily)
    (updateKey : string -> Patch -> GoogleAIKey -> GoogleAIKey)
    (k : GoogleAIKey) (d : ListModelsResponse) (r : AxiosResponse)
    (H200 : status r = 200) :
  let ids := fst (collect getGoogleAIModelFamily (models d)) in
  let families := snd (collect getGoogleAIModelFamily (models d)) in
  let final := mkPatch None None None (Some families) None in
  (exists before k1,
     let k2 := updateKey (hash k1) final k1 in
     testKeyOrFail getGoogleAIModelFamily updateKey k (Resolved d) (Response r)
     = ((before
          ++ [UpdateKey (hash k1) final;
              Log LInfo
                [("key", Some (JStr (hash k2)));
                 ("models", strings (modelFamilies k2));
                 ("ids", Some (JNum (Z.of_nat (List.length (modelIds k2)))))]
                "Checked key."])%list,
        k2, Resolved tt)
     /\ updates before
        = [(hash k, mkPatch None None None (Some families) (Some ids))])
  /\ Forall (fun hp => p_lastChecked (snd hp) = None)
        (updates (fst (fst (testKeyOrFail getGoogleAIModelFamily updateKey k
                              (Resolved d) (Response r)))))
  /\ (let k' := snd (fst (testKeyOrFail getGoogleAIModelFamily applyPatch k
                            (Resolved d) (Response r))) in
      modelFamilies k' = families /\ modelIds k' = ids
      /\ lastChecked k' = lastChecked k).
Proof.
  cbv zeta.
  unfold testKeyOrFail.
  rewrite !getProvisionedModels_resolved.
  unfold testGenerateContent, settle.
  apply Z.eqb_eq in H200; rewrite H200.
  split; [|split].
  - eexists [_; _; _]; eexists; split; reflexivity.
  - cbn; repeat constructor.
  - cbn [fst snd]; unfold applyPatch; cbn.
    repeat (rewrite String.eqb_refl; cbn).
    repeat split.
Qed.

(** The success path at the sample key. *)
Lemma testKeyOrFail_success_witness :
  status (mkResponse 200 (Some (JObj [("candidates", JArr [])]))) = 200
  /\ Forall (fun hp => p_lastChecked (snd hp) = None)
        (updates (fst (fst (testKeyOrFail Samples.family applyPatch
                              Samples.sampleKey Samples.listed Samples.ok200)))).
Proof.
  split; [reflexivity|].
  apply (testKeyOrFail_success Samples.family applyPatch Samples.sampleKey
           (mkListModels
              [mkModelInfo "models/gemini-pro";
               mkModelInfo "models/gemini-1.5-pro-latest";
               mkModelInfo "models/gemini-pro"] "")
           (mkResponse 200 (Some (JObj [("candidates", JArr [])])))
           eq_refl).
Defined.


End ProbeFacts.

(* ================================================================== *)
(** * The stream transcoder                                            *)
(* ================================================================== *)

Module TranscoderFacts.
Import JS Transcoder.

(** ** Inversion of the steps of [transform] *)

Lemma bind_normal {A B : Type} (m : Completion A) (f : A -> Completion B)
    (b : B) :
  bind m f = Normal b -> exists a, m = Normal a /\ f a = Normal b.
Proof.
  destruct m as [a|e]; simpl; intros H; [now exists a | discriminate].
Qed.

(** Property access that succeeds is the optional access. *)
Lemma getProp_normal (v : JSU) (name : string) (r : JSU) :
  getProp v name = Normal r -> getPropOpt v name = r.
Proof. unfold getPropOpt; now intros ->. Qed.

Lemma getProp_not_nullish (v : JSU) (name : string) :
  isNullish v = false -> getProp v name = Normal (getPropOpt v name).
Proof.
  unfold getPropOpt; destruct v as [[| | | | |]|]; simpl; intros H;
    try discriminate; try reflexivity;
    destruct (String.eqb name "length"); reflexivity.
Qed.

Lemma getProp_throws_iff (v : JSU) (name : string) :
  (exists r, getProp v name = Normal r) <-> isNullish v = false.
Proof.
  split.
  - intros [r H]; destruct v as [[| | | | |]|]; simpl in *;
      try reflexivity; discriminate.
  - intros H; eexists; apply getProp_not_nullish, H.
Qed.

Lemma isSafetyStop_spec (completion c : JSU) :
  firstCandidate completion = Normal c ->
  isNullish c = false ->
  isSafetyStop completion = Normal (stopReason c && partsLengthIsZero c).
Proof.
  intros Hc Hn; unfold isSafetyStop.
  rewrite Hc; cbn [bind].
  rewrite !(getProp_not_nullish c _ Hn); cbn [bind].
  reflexivity.
Qed.

(** Everything [transform] needs for a normal return, and what it returns
    then. *)
Lemma transform_normal (params : Params) (completionEvent : JSU) (now : Z)
    (out : Output) :
  transform params completionEvent now = Normal out ->
  exists c text content,
    firstCandidate completionEvent = Normal c
    /\ isNullish c = false
    /\ extractText completionEvent = Normal text
    /\ overrideOnSafetyStop completionEvent text
       = Normal (if stopReason c && partsLengthIsZero c
                 then JStr (warningPrefix
                            ++ stringifyInTemplate (getPropOpt c "safetyRatings"))
                 else text)
    /\ (if p_index params =? 0
        then stripSpeaker (if stopReason c && partsLengthIsZero c
                           then JStr (warningPrefix
                                      ++ stringifyInTemplate
                                           (getPropOpt c "safetyRatings"))
                           else text)
        else Normal (if stopReason c && partsLengthIsZero c
                     then JStr (warningPrefix
                                ++ stringifyInTemplate
                                     (getPropOpt c "safetyRatings"))
                     else text)) = Normal content
    /\ emittedContent out = Some content
    /\ out = mkOutput (-1)
               (Some (mkChunk ("goo-" ++ fallbackId params)
                              "chat.completion.chunk" now (fallbackModel params)
                              [mkChoice 0 content
                                 (coalesce (getPropOpt c "finishReason") JNull)])).
Proof.
  unfold transform; intros H.
  apply bind_normal in H as [text [Htext H]].
  apply bind_normal in H as [content1 [Hover H]].
  apply bind_normal in H as [content [Hstrip H]].
  apply bind_normal in H as [c [Hc H]].
  apply bind_normal in H as [fr [Hfr H]].
  assert (Hn : isNullish c = false).
  { apply (getProp_throws_iff c "finishReason"); now exists fr. }
  injection H as <-.
  exists c, text, content.
  assert (Hover' : overrideOnSafetyStop completionEvent text
                   = Normal (if stopReason c && partsLengthIsZero c
                             then JStr (warningPrefix
                                        ++ stringifyInTemplate
                                             (getPropOpt c "safetyRatings"))
                             else text)).
  { unfold overrideOnSafetyStop.
    rewrite (isSafetyStop_spec completionEvent c Hc Hn); cbn [bind].
    destruct (stopReason c && partsLengthIsZero c); [|reflexivity].
    rewrite Hc; cbn [bind].
    rewrite (getProp_not_nullish c _ Hn); reflexivity. }
  rewrite Hover' in Hover; injection Hover as <-.
  rewrite (getProp_normal _ _ _ Hfr).
  repeat split; auto.
Qed.

(** The pattern takes exactly the prefix of the synthesized warning. *)
Lemma replaceSpeaker_warning (serialized : string) :
  replaceSpeaker (warningPrefix ++ serialized) = serialized.
Proof. reflexivity. Qed.

Lemma strip_warning (ratings : JSU) :
  stripSpeaker (JStr (warningPrefix ++ stringifyInTemplate ratings))
  = Normal (JStr (stringifyInTemplate ratings)).
Proof.
  unfold stripSpeaker; rewrite replaceSpeaker_warning.
  now rewrite (JSFacts.trim_fixed _ (JSFacts.stringifyInTemplate_trimmed ratings)).
Qed.

(** A candidate without [content], or whose content has no [parts], does
    not satisfy the second condition of [isSafetyStop]. *)
Lemma partsLengthIsZero_absent (c : JSU) :
  isNullish (getPropOpt (getPropOpt c "content") "parts") = true ->
  partsLengthIsZero c = false.
Proof.
  unfold partsLengthIsZero.
  destruct (getPropOpt (getPropOpt c "content") "parts") as [[| | | | |]|];
    simpl; intros H; try discriminate; reflexivity.
Qed.

Section AnyParsers.

Variable parseEvent : string -> ServerSentEvent.
Variable JSON_parse : string -> option JSValue.
Variable coercedGt0 : JSValue -> Completion bool.

Abbreviation googleAIToOpenAI :=
  (googleAIToOpenAI parseEvent JSON_parse coercedGt0).
Abbreviation asCompletion := (asCompletion JSON_parse coercedGt0).
Abbreviation tryCompletion := (tryCompletion JSON_parse coercedGt0).

(** An empty payload and the sentinel give the skip result, nothing
    logged. *)
Lemma skip_on_empty_or_done (params : Params) (now : Z) :
  data (parseEvent (p_data params)) = ""
  \/ data (parseEvent (p_data params)) = "[DONE]" ->
  googleAIToOpenAI params now = ([], Normal skip).
Proof.
  unfold Transcoder.googleAIToOpenAI; intros [-> | ->]; reflexivity.
Qed.

(** A payload that [asCompletion] rejects gives the skip result after one
    warning. *)
Lemma skip_on_invalid (params : Params) (now : Z) (e : Exn) :
  let ev := parseEvent (p_data params) in
  isEmpty (data ev) = false ->
  String.eqb (data ev) "[DONE]" = false ->
  tryCompletion ev = Throw e ->
  googleAIToOpenAI params now
  = ([Warn e ev "Received invalid event"], Normal skip).
Proof.
  cbv zeta; unfold Transcoder.googleAIToOpenAI, Transcoder.asCompletion.
  intros -> -> ->; reflexivity.
Qed.

(** A payload that [asCompletion] accepts goes through [transform]. *)
Lemma transform_on_valid (params : Params) (now : Z) (parsed : JSValue) :
  let ev := parseEvent (p_data params) in
  isEmpty (data ev) = false ->
  String.eqb (data ev) "[DONE]" = false ->
  tryCompletion ev = Normal parsed ->
  googleAIToOpenAI params now = ([], transform params (Some parsed) now).
Proof.
  cbv zeta; unfold Transcoder.googleAIToOpenAI, Transcoder.asCompletion.
  intros -> -> H; rewrite H; cbn [orb].
  assert (Ht : truthy (Some parsed) = true).
  { unfold Transcoder.tryCompletion in H.
    destruct (JSON_parse _) as [p|]; [|discriminate].
    destruct p as [|b|n|t|xs|props]; cbn in H; try discriminate;
      try (destruct (String.eqb "candidates" "length"); discriminate).
    apply bind_normal in H as [positive [_ H]].
    destruct positive; [now injection H as <- | discriminate]. }
  rewrite Ht; reflexivity.
Qed.

(** A payload that [asCompletion] accepts and whose first candidate is
    [null] or missing makes line 37 throw; nothing is logged. *)
Lemma throws_on_nullish_candidate (params : Params) (now : Z)
    (parsed : JSValue) (c : JSU) :
  let ev := parseEvent (p_data params) in
  isEmpty (data ev) = false ->
  String.eqb (data ev) "[DONE]" = false ->
  tryCompletion ev = Normal parsed ->
  firstCandidate (Some parsed) = Normal c ->
  isNullish c = true ->
  googleAIToOpenAI params now = ([], Throw TypeError).
Proof.
  cbv zeta; intros Hd Hn Ht Hc Hnull.
  rewrite (transform_on_valid params now parsed Hd Hn Ht).
  unfold transform, extractText; rewrite Hc; cbn [bind].
  destruct c as [[| | | | |]|]; try discriminate; reflexivity.
Qed.

(** At index 0 an extracted text that is not a string makes line 49
    throw. *)
Lemma throws_on_text_not_string (params : Params) (now : Z)
    (parsed text : JSValue) :
  let ev := parseEvent (p_data params) in
  isEmpty (data ev) = false ->
  String.eqb (data ev) "[DONE]" = false ->
  tryCompletion ev = Normal parsed ->
  p_index params = 0 ->
  bind (extractText (Some parsed)) (overrideOnSafetyStop (Some parsed))
  = Normal text ->
  (forall s, text <> JStr s) ->
  googleAIToOpenAI params now = ([], Throw TypeError).
Proof.
  cbv zeta; intros Hd Hn Ht Hi Hx Hs.
  rewrite (transform_on_valid params now parsed Hd Hn Ht).
  unfold transform.
  destruct (extractText (Some parsed)) as [t0|e]; [|discriminate].
  cbn [bind] in Hx |- *; rewrite Hx; cbn [bind].
  rewrite Hi; cbn [Z.eqb].
  destruct text as [| | |s| |]; try reflexivity.
  now destruct (Hs s).
Qed.

End AnyParsers.

(** C5.  A frame whose first candidate has, as the first of its content
    parts, the text "Assistant: Hello there": at index 0 the chunk emitted
    has [delta.content] "Hello there"; at any index from 1 on the chunk
    emitted has the text with its prefix, unchanged. *)
Theorem googleAIToOpenAI_speaker_prefix
    (parseEvent : string -> ServerSentEvent)
    (JSON_parse : string -> option JSValue)
    (coercedGt0 : JSValue -> Completion bool)
    (params : Params) (now : Z)
    (parsed c content part : JSValue) (cs parts : list JSValue)
    (Hdata : isEmpty (data (parseEvent (p_data params))) = false)
    (Hdone : String.eqb (data (parseEvent (p_data params))) "[DONE]" = false)
    (Hparse : JSON_parse (data (parseEvent (p_data params))) = Some parsed)
    (Hcandidates : getProp (Some parsed) "candidates"
                   = Normal (Some (JArr (c :: cs))))
    (Hcontent : getProp (Some c) "content" = Normal (Some content))
    (Hparts : getProp (Some content) "parts"
              = Normal (Some (JArr (part :: parts))))
    (Htext : getProp (Some part) "text"
             = Normal (Some (JStr "Assistant: Hello there"))) :
  exists out,
    googleAIToOpenAI parseEvent JSON_parse coercedGt0 params now
    = ([], Normal out)
    /\ (p_index params = 0 ->
        emittedContent out = Some (JStr "Hello there"))
    /\ (1 <= p_index params ->
        emittedContent out = Some (JStr "Assistant: Hello there")).
Proof.
  assert (Htry : tryCompletion JSON_parse coercedGt0
                   (parseEvent (p_data params)) = Normal parsed).
  { unfold tryCompletion; rewrite Hparse, Hcandidates; cbn [bind].
    unfold getPropOpt; cbn [getProp String.eqb Ascii.eqb Bool.eqb].
    cbn [gt0 bind].
    replace (0 <? Z.of_nat (List.length (c :: cs))) with true;
      [reflexivity|].
    symmetry; apply Z.ltb_lt; cbn [List.length]; lia. }
  rewrite (transform_on_valid parseEvent JSON_parse coercedGt0 params now parsed
             Hdata Hdone Htry).
  assert (Hn : isNullish (Some c) = false).
  { apply (getProp_throws_iff (Some c) "content"); eauto. }
  assert (Hfirst : firstCandidate (Some parsed) = Normal (Some c)).
  { unfold firstCandidate; rewrite Hcandidates; reflexivity. }
  assert (Hext : extractText (Some parsed)
                 = Normal (JStr "Assistant: Hello there")).
  { unfold extractText; rewrite Hfirst; cbn [bind].
    rewrite Hcontent; cbn [bind].
    rewrite (getProp_normal _ _ _ Hparts); cbn [orElse truthy getFirst hd_error bind].
    rewrite (getProp_normal _ _ _ Htext); reflexivity. }
  assert (Hzero : partsLengthIsZero (Some c) = false).
  { unfold partsLengthIsZero.
    rewrite (getProp_normal _ _ _ Hcontent), (getProp_normal _ _ _ Hparts).
    unfold getPropOpt; cbn [getProp String.eqb Ascii.eqb Bool.eqb isZero].
    apply Z.eqb_neq; cbn [List.length]; lia. }
  assert (Hover : overrideOnSafetyStop (Some parsed)
                    (JStr "Assistant: Hello there")
                  = Normal (JStr "Assistant: Hello there")).
  { unfold overrideOnSafetyStop.
    rewrite (isSafetyStop_spec _ _ Hfirst Hn), Hzero, andb_false_r.
    reflexivity. }
  unfold transform; rewrite Hext; cbn [bind]; rewrite Hover; cbn [bind].
  rewrite Hfirst; cbn [bind].
  rewrite (getProp_not_nullish _ "finishReason" Hn); cbn [bind].
  destruct (p_index params =? 0) eqn:E.
  - eexists; split; [reflexivity|]; split.
    + intros _; reflexivity.
    + intros H; apply Z.eqb_eq in E; lia.
  - eexists; split; [reflexivity|]; split.
    + intros H; apply Z.eqb_neq in E; lia.
    + intros _; reflexivity.
Qed.

(** C5, the theorem at the frame
    [data: {"candidates":[{"content":{"parts":[{"text":"Assistant: Hello there"}],"role":"model"},"index":0}]}],
    read by the parsers of [Parse], at index 0. *)
Lemma googleAIToOpenAI_speaker_prefix_witness :
  exists out,
    Parse.run (Samples.params (Samples.textFrame "Assistant: Hello there") 0) 1234
    = ([], Normal out)
    /\ (0 = 0 -> emittedContent out = Some (JStr "Hello there"))
    /\ (1 <= 0 -> emittedContent out = Some (JStr "Assistant: Hello there")).
Proof.
  apply (googleAIToOpenAI_speaker_prefix
           Parse.parseEvent Parse.JSON_parse Parse.coercedGt0
           (Samples.params (Samples.textFrame "Assistant: Hello there") 0) 1234
           (JObj [("candidates",
                   JArr [JObj [("content",
                                JObj [("parts",
                                       JArr [JObj [("text",
                                                    JStr "Assistant: Hello there")]]);
                                      ("role", JStr "model")]);
                               ("index", JNum 0)]])])
           (JObj [("content",
                   JObj [("parts",
                          JArr [JObj [("text", JStr "Assistant: Hello there")]]);
                         ("role", JStr "model")]);
                  ("index", JNum 0)])
           (JObj [("parts", JArr [JObj [("text", JStr "Assistant: Hello there")]]);
                  ("role", JStr "model")])
           (JObj [("text", JStr "Assistant: Hello there")])
           [] []);
    vm_compute; reflexivity.
Defined.

(** The override as the code computes it.  For every parsed event from
    which a chunk is emitted, with [c] its first candidate: when the finish reason of [c]
    is SAFETY or OTHER and [c.content.parts] is there with length 0, the
    emitted [delta.content] is the synthesized warning, the prefix followed
    by the candidate's [safetyRatings] serialized (the serialization alone
    at index 0, where the prefix is stripped); it holds the serialization
    and is not the empty string.  In every other case, which includes a
    candidate that has no [content] or no [parts] at all, the extracted
    text is not replaced: it is emitted as it is, or stripped and trimmed
    at index 0. *)
Theorem transform_safety_override
    (params : Params) (completionEvent : JSU) (now : Z) (out : Output)
    (Hout : transform params completionEvent now = Normal out) :
  exists c text,
    firstCandidate completionEvent = Normal c
    /\ extractText completionEvent = Normal text
    /\ (stopReason c && partsLengthIsZero c = true ->
        let serialized := stringifyInTemplate (getPropOpt c "safetyRatings") in
        exists w,
          emittedContent out = Some (JStr w)
          /\ w = (if p_index params =? 0 then serialized
                  else warningPrefix ++ serialized)
          /\ includes serialized w = true
          /\ w <> "")
    /\ (stopReason c && partsLengthIsZero c = false ->
        (p_index params <> 0 -> emittedContent out = Some text)
        /\ (p_index params = 0 ->
            exists s, text = JStr s
                      /\ emittedContent out
                         = Some (JStr (trim (replaceSpeaker s)))))
    /\ (isNullish (getPropOpt (getPropOpt c "content") "parts") = true ->
        stopReason c && partsLengthIsZero c = false).
Proof.
  destruct (transform_normal params completionEvent now out Hout)
    as [c [text [content [Hc [Hn [Htext [_ [Hstrip [Hem _]]]]]]]]].
  exists c, text; split; [exact Hc|split; [exact Htext|]].
  split; [|split].
  - intros Hs; cbv zeta; rewrite Hs in Hstrip.
    destruct (p_index params =? 0).
    + rewrite strip_warning in Hstrip; injection Hstrip as <-.
      eexists; split; [exact Hem|split; [reflexivity|split]].
      * apply JSFacts.includes_refl.
      * apply JSFacts.stringifyInTemplate_not_empty.
    + exists (warningPrefix ++ stringifyInTemplate (getPropOpt c "safetyRatings")).
      split; [rewrite Hem; f_equal; congruence|split; [reflexivity|split]].
      * apply JSFacts.includes_app_r.
      * discriminate.
  - intros Hs; rewrite Hs in Hstrip; split.
    + intros Hi; apply Z.eqb_neq in Hi; rewrite Hi in Hstrip.
      injection Hstrip as <-; exact Hem.
    + intros Hi; rewrite Hi in Hstrip; cbn [Z.eqb] in Hstrip.
      destruct text as [| | |s| |]; try discriminate.
      exists s; split; [reflexivity|].
      cbn [stripSpeaker] in Hstrip; injection Hstrip as <-; exact Hem.
  - intros Ha; rewrite (partsLengthIsZero_absent c Ha); apply andb_false_r.
Qed.

(** The override at the safety stop with an empty [parts] array, at
    index 1: the content emitted holds the serialized ratings. *)
Lemma transform_safety_override_witness :
  exists out,
    transform (Samples.params Samples.safetyFrameEmptyParts 1)
              (Parse.JSON_parse
                 (data (Parse.parseEvent Samples.safetyFrameEmptyParts)))
              1234
    = Normal out
    /\ exists w,
         emittedContent out = Some (JStr w)
         /\ includes Samples.ratingsJson w = true
         /\ w <> "".
Proof.
  eexists; split; [vm_compute; reflexivity|].
  match goal with
  | |- exists w, emittedContent ?o = _ /\ _ =>
      destruct (transform_safety_override
                  (Samples.params Samples.safetyFrameEmptyParts 1)
                  (Parse.JSON_parse
                     (data (Parse.parseEvent Samples.safetyFrameEmptyParts)))
                  1234 o)
        as [c [text [Hc [_ [Hs _]]]]]; [vm_compute; reflexivity|]
  end.
  vm_compute in Hc; injection Hc as <-.
  destruct (Hs ltac:(vm_compute; reflexivity)) as [w [Hw [_ [Hi Hne]]]].
  exists w; split; [exact Hw|split; [exact Hi|exact Hne]].
Defined.

(** C6, the code at a safety stop without content.  A candidate stopped
    for SAFETY that carries no content parts, because it has no [content]
    at all (line 37 reads its parts as the empty array): [hasNoContent]
    compares [undefined] with 0 and is false, so the chunk emitted
    (index 1) has the empty string as [delta.content], with finish reason
    SAFETY and no warning. *)
Lemma transform_safety_stop_without_content :
  let parsed :=
    Parse.JSON_parse (data (Parse.parseEvent Samples.safetyFrameNoContent)) in
  (exists c, firstCandidate parsed = Normal c
             /\ stopReason c = true /\ carriesNoParts c = true)
  /\ exists out,
       Parse.run (Samples.params Samples.safetyFrameNoContent 1) 1234
       = ([], Normal out)
       /\ emittedContent out = Some (JStr "")
       /\ option_map (fun ch => finish_reason ch)
            (match event out with
             | Some chunk => hd_error (choices chunk)
             | None => None
             end) = Some (JStr "SAFETY").
Proof.
  cbv zeta; split.
  - eexists; split; [vm_compute; reflexivity|split; vm_compute; reflexivity].
  - eexists; split; [vm_compute; reflexivity|split; vm_compute; reflexivity].
Qed.

(** C7, the code at a frame whose first candidate is [null].  The payload
    [{"candidates":[null]}] is valid JSON and its [candidates] has length
    1, so [asCompletion] accepts it and logs nothing; line 37 then reads
    [content] of [null], and the TypeError leaves the transcoder, whatever
    the index.  The same happens at index 0 for the payload
    [{"candidates":[{"content":{"parts":[{"text":5}]}}]}], whose text has
    no [replace]. *)
Theorem googleAIToOpenAI_throws_on_null_candidate (i now : Z) :
  Parse.JSON_parse (data (Parse.parseEvent Samples.nullCandidateFrame))
  = Some (JObj [("candidates", JArr [JNull])])
  /\ Parse.run (Samples.params Samples.nullCandidateFrame i) now
     = ([], Throw TypeError)
  /\ Parse.run (Samples.params Samples.numberTextFrame 0) now
     = ([], Throw TypeError).
Proof.
  split; [vm_compute; reflexivity|split].
  - apply (throws_on_nullish_candidate
             Parse.parseEvent Parse.JSON_parse Parse.coercedGt0
             (Samples.params Samples.nullCandidateFrame i) now
             (JObj [("candidates", JArr [JNull])]) (Some JNull));
      vm_compute; reflexivity.
  - apply (throws_on_text_not_string
             Parse.parseEvent Parse.JSON_parse Parse.coercedGt0
             (Samples.params Samples.numberTextFrame 0) now
             (JObj [("candidates",
                     JArr [JObj [("content",
                                  JObj [("parts",
                                         JArr [JObj [("text", JNum 5)]])])]])])
             (JNum 5));
      try (vm_compute; reflexivity).
    intros s; discriminate.
Qed.

(** C10, as amended.  For every frame at index 0 from which a chunk is
    emitted, with [text] the content after the safety-block override: the
    emitted [delta.content] is [text] with the match of the pattern
    removed, trimmed, so it has no white space at either end.  When
    [text] is a run, then [": "], then a rest, the run holding no [": "]:
    the run and the separator are removed if the run holds no line
    terminator, whether or not it is a speaker name, and nothing is
    removed if it holds one.  The strip comes after the override: a
    safety-triggered chunk at index 0 has the prefix of the synthesized
    warning stripped and is exactly the serialized safety ratings. *)
Theorem transform_first_frame_strip
    (params : Params) (completionEvent : JSU) (now : Z) (out : Output)
    (Hindex : p_index params = 0)
    (Hout : transform params completionEvent now = Normal out) :
  exists c text,
    firstCandidate completionEvent = Normal c
    /\ bind (extractText completionEvent)
            (overrideOnSafetyStop completionEvent) = Normal (JStr text)
    /\ emittedContent out = Some (JStr (trim (replaceSpeaker text)))
    /\ isTrimmed (trim (replaceSpeaker text)) = true
    /\ (forall run rest,
          text = run ++ ": " ++ rest ->
          includes ": " run = false ->
          (onOneLine run = true ->
           emittedContent out = Some (JStr (trim rest)))
          /\ (onOneLine run = false ->
              emittedContent out = Some (JStr (trim text))))
    /\ (includes ": " text = false ->
        emittedContent out = Some (JStr (trim text)))
    /\ (stopReason c && partsLengthIsZero c = true ->
        emittedContent out
        = Some (JStr (stringifyInTemplate (getPropOpt c "safetyRatings")))).
Proof.
  destruct (transform_normal params completionEvent now out Hout)
    as [c [text0 [content [Hc [Hn [Htext [Hover [Hstrip [Hem _]]]]]]]]].
  rewrite Hindex in Hstrip; cbn [Z.eqb] in Hstrip.
  remember (if stopReason c && partsLengthIsZero c
            then JStr (warningPrefix
                       ++ stringifyInTemplate (getPropOpt c "safetyRatings"))
            else text0) as after eqn:Hafter.
  destruct after as [| | |text| |]; try discriminate.
  cbn [stripSpeaker] in Hstrip; injection Hstrip as <-.
  exists c, text; split; [exact Hc|].
  split; [rewrite Htext; cbn [bind]; exact Hover|].
  split; [exact Hem|].
  split; [apply JSFacts.isTrimmed_trim|].
  split; [|split].
  - intros run rest -> Hi; split; intros Hl; rewrite Hem; unfold replaceSpeaker.
    + now rewrite (JSFacts.afterSpeaker_run run rest Hi Hl).
    + now rewrite (JSFacts.afterSpeaker_line_break run rest Hi Hl).
  - intros Hi; rewrite Hem; unfold replaceSpeaker.
    now rewrite (JSFacts.afterSpeaker_none text Hi).
  - intros Hs; rewrite Hs in Hafter.
    assert (Ht : text = warningPrefix
                        ++ stringifyInTemplate (getPropOpt c "safetyRatings"))
      by congruence.
    rewrite Hem, Ht, replaceSpeaker_warning.
    now rewrite (JSFacts.trim_fixed _ (JSFacts.stringifyInTemplate_trimmed _)).
Qed.

(** C10, the theorem at the safety stop with an empty [parts] array, at
    index 0: the content emitted is the serialized ratings. *)
Lemma transform_first_frame_strip_witness :
  p_index (Samples.params Samples.safetyFrameEmptyParts 0) = 0
  /\ exists out,
       transform (Samples.params Samples.safetyFrameEmptyParts 0)
                 (Parse.JSON_parse
                    (data (Parse.parseEvent Samples.safetyFrameEmptyParts)))
                 1234
       = Normal out
       /\ emittedContent out = Some (JStr Samples.ratingsJson).
Proof.
  split; [reflexivity|].
  eexists; split; [vm_compute; reflexivity|].
  match goal with
  | |- emittedContent ?o = _ =>
      destruct (transform_first_frame_strip
                  (Samples.params Samples.safetyFrameEmptyParts 0)
                  (Parse.JSON_parse
                     (data (Parse.parseEvent Samples.safetyFrameEmptyParts)))
                  1234 o eq_refl)
        as [c [text [Hc [_ [_ [_ [_ [_ Hs]]]]]]]]; [vm_compute; reflexivity|]
  end.
  vm_compute in Hc; injection Hc as <-.
  rewrite (Hs ltac:(vm_compute; reflexivity)).
  vm_compute; reflexivity.
Defined.

(** C10, counterexample.  At index 0, the text of two lines
    [a], line feed, [b: c]: the leading run up to the first [": "] is
    [a], line feed, [b]; it is not removed, and the chunk emitted holds
    the whole text, not [c]. *)
Lemma transform_keeps_run_with_line_break :
  let lf := String "010"%char "" in
  let run := "a" ++ lf ++ "b" in
  includes ": " run = false
  /\ exists out,
       Parse.run (Samples.params (Samples.textFrame "a\nb: c") 0) 1234
       = ([], Normal out)
       /\ extractText
            (Parse.JSON_parse
               (data (Parse.parseEvent (Samples.textFrame "a\nb: c"))))
          = Normal (JStr (run ++ ": " ++ "c"))
       /\ emittedContent out = Some (JStr (run ++ ": " ++ "c"))
       /\ emittedContent out <> Some (JStr "c").
Proof.
  cbv zeta; split; [vm_compute; reflexivity|].
  eexists; split; [vm_compute; reflexivity|].
  split; [vm_compute; reflexivity|].
  split; [vm_compute; reflexivity | vm_compute; discriminate].
Qed.

End TranscoderFacts.

(* ================================================================== *)
(** * What a serialized value can hold                                 *)
(* ================================================================== *)

Module SerializedText.
Import JS Lex.

(** Induction on a JSON value, elements and members included. *)
Section Induction.

Variable P : JSValue -> Prop.
Hypothesis HNull : P JNull.
Hypothesis HBool : forall b, P (JBool b).
Hypothesis HNum : forall n, P (JNum n).
Hypothesis HStr : forall s, P (JStr s).
Hypothesis HArr : forall xs, Forall P xs -> P (JArr xs).
Hypothesis HObj :
  forall props, Forall (fun kv => P (snd kv)) props -> P (JObj props).

Fixpoint JSValue_induction (v : JSValue) : P v :=
  match v with
  | JNull => HNull
  | JBool b => HBool b
  | JNum n => HNum n
  | JStr s => HStr s
  | JArr xs =>
      HArr xs
        ((fix each (l : list JSValue) : Forall P l :=
            match l with
            | [] => Forall_nil P
            | x :: r => Forall_cons x (JSValue_induction x) (each r)
            end) xs)
  | JObj props =>
      HObj props
        ((fix each (l : list (string * JSValue))
            : Forall (fun kv => P (snd kv)) l :=
            match l with
            | [] => Forall_nil _
            | kv :: r => Forall_cons kv (JSValue_induction (snd kv)) (each r)
            end) props)
  end.

End Induction.

Lemma scan_app (st : State) (a b : string) :
  scan st (a ++ b)
  = match scan st a with
    | Some st' => scan st' b
    | None => None
    end.
Proof.
  revert st; induction a as [|c a IH]; intros st; cbn [append scan];
    [reflexivity|].
  destruct (step st c); [apply IH | reflexivity].
Qed.

(** An escaped character keeps the reader inside the literal. *)
Lemma scan_escapeChar (c : ascii) : scan Inside (escapeChar c) = Some Inside.
Proof.
  destruct c as [[] [] [] [] [] [] [] []]; reflexivity.
Qed.

Lemma scan_escape (s : string) : scan Inside (escape s) = Some Inside.
Proof.
  induction s as [|c s IH]; [reflexivity|].
  cbn [escape]; now rewrite scan_app, scan_escapeChar.
Qed.

(** A quoted string is one literal. *)
Lemma scan_quote (s : string) : scan Outside (quote s) = Some Outside.
Proof.
  unfold quote.
  rewrite scan_app.
  change (scan Outside dquote) with (Some Inside); cbv iota.
  now rewrite scan_app, scan_escape.
Qed.

Lemma step_digit (n : Z) : step Outside (digitChar (n mod 10)) = Some Outside.
Proof.
  pose proof (Z.mod_pos_bound n 10 ltac:(lia)) as H.
  remember (n mod 10) as d eqn:Hd; clear Hd.
  destruct d as [|p|p]; [reflexivity| |lia].
  do 4 (destruct p as [p|p|]; try lia; try reflexivity).
Qed.

Lemma scan_digits (fuel : nat) (n : Z) (acc : string) :
  scan Outside (digits fuel n acc) = scan Outside acc.
Proof.
  revert n acc; induction fuel as [|f IH]; intros n acc; cbn [digits].
  - cbn [scan]; now rewrite step_digit.
  - destruct (n <? 10).
    + cbn [scan]; now rewrite step_digit.
    + rewrite IH; cbn [scan]; now rewrite step_digit.
Qed.

Lemma scan_number (n : Z) : scan Outside (Number_toString n) = Some Outside.
Proof.
  unfold Number_toString; destruct (n <? 0).
  - cbn [scan]; change (step Outside "-") with (Some Outside); cbv iota.
    apply scan_digits.
  - apply scan_digits.
Qed.

(** Items that each read from outside to outside, joined by commas. *)
Lemma scan_join (items : list string) :
  Forall (fun s => scan Outside s = Some Outside) items ->
  scan Outside (join "," items) = Some Outside.
Proof.
  induction 1 as [|x l Hx Hl IH]; [reflexivity|].
  cbn [join]; destruct l as [|y l]; [exact Hx|].
  rewrite scan_app, Hx.
  change ("," ++ join "," (y :: l)) with (String "," (join "," (y :: l))).
  cbn [scan]; exact IH.
Qed.

(** A serialized value is read from outside a literal back to outside:
    outside its string literals it holds no slash and no letter q. *)
Lemma scan_stringify (v : JSValue) : scan Outside (stringify v) = Some Outside.
Proof.
  induction v as [|b|n|s|xs IH|props IH] using JSValue_induction.
  - reflexivity.
  - destruct b; reflexivity.
  - apply scan_number.
  - apply scan_quote.
  - cbn [stringify].
    change ("[" ++ join "," (map stringify xs) ++ "]")
      with (String "[" (join "," (map stringify xs) ++ "]")).
    cbn [scan]; change (step Outside "[") with (Some Outside); cbv iota.
    rewrite scan_app, scan_join; [reflexivity|].
    apply Forall_map; exact IH.
  - cbn [stringify].
    match goal with
    | |- scan Outside ("{" ++ ?body ++ "}") = _ =>
        change ("{" ++ body ++ "}") with (String "{" (body ++ "}"));
        cbn [scan]; change (step Outside "{") with (Some Outside); cbv iota;
        rewrite scan_app, scan_join; [reflexivity|]
    end.
    apply Forall_map.
    eapply Forall_impl; [|exact IH].
    intros [k v] Hv; cbn [fst snd] in *.
    rewrite scan_app, scan_quote.
    change (":" ++ stringify v) with (String ":" (stringify v)).
    cbn [scan]; exact Hv.
Qed.

(** The three characters slash, double quote, q. *)
Definition slashQuoteQ : string := String "/" (String "034" (String "q" "")).

(** A text that holds slash, double quote, q in a row cannot be read. *)
Lemma scan_slashQuoteQ (s : string) (st : State) :
  includes slashQuoteQ s = true -> scan st s = None.
Proof.
  revert st; induction s as [|c s IH]; intros st H; [discriminate|].
  cbn [includes] in H; apply orb_true_iff in H as [H|H].
  - unfold slashQuoteQ in H; cbn [startsWith] in H.
    apply andb_true_iff in H as [Hc H]; apply Ascii.eqb_eq in Hc; subst c.
    destruct s as [|d s]; [discriminate|].
    apply andb_true_iff in H as [Hd H]; apply Ascii.eqb_eq in Hd; subst d.
    destruct s as [|e s]; [discriminate|].
    apply andb_true_iff in H as [He _]; apply Ascii.eqb_eq in He; subst e.
    destruct st; reflexivity.
  - cbn [scan]; destruct (step st c); [apply IH, H | reflexivity].
Qed.

(** No serialized value holds slash, double quote, q in a row. *)
Lemma stringify_without_slashQuoteQ (v : JSValue) :
  includes slashQuoteQ (stringify v) = false.
Proof.
  destruct (includes slashQuoteQ (stringify v)) eqn:E; [|reflexivity].
  apply (scan_slashQuoteQ _ Outside) in E.
  rewrite scan_stringify in E; discriminate.
Qed.

End SerializedText.

(* ================================================================== *)
(** * The key checker: what every handled failure has in common        *)
(* ================================================================== *)

Module HandlerFacts.
Import JS Checker.

(** A truthy [errorIsGoogleAIError] comes from an object under [error]. *)
Lemma guard_gives_object (error : AxiosError) :
  truthy (errorIsGoogleAIError error) = true ->
  exists resp props,
    response error = Some resp
    /\ getPropOpt (data resp) "error" = Some (JObj props)
    /\ (truthy (assoc "code" props) = true
        \/ truthy (assoc "status" props) = true)
    /\ errorText error = stringify (JObj props).
Proof.
  unfold errorIsGoogleAIError, errorText.
  destruct (response error) as [resp|]; [|discriminate].
  intros H; exists resp.
  destruct (getPropOpt (data resp) "error") as [[| | | | |props]|] eqn:E;
    try discriminate.
  exists props; repeat split; try reflexivity.
  unfold orElse in H; cbn in H.
  destruct (truthy (assoc "code" props)) eqn:Ec; [now left | now right].
Qed.

(** [errorIsGoogleAIError] is truthy only for a failure that has a
    response whose body holds an object under [error], with a truthy
    [code] or [status]: the test of [error.response] at line 98 adds
    nothing to it, the destructuring of line 100 finds an object, and the
    text serialized at lines 110 and 130 is that object's. *)
Theorem errorIsGoogleAIError_envelope (error : AxiosError) :
  truthy (errorIsGoogleAIError error) = true ->
  exists resp props,
    response error = Some resp
    /\ getPropOpt (data resp) "error" = Some (JObj props)
    /\ (truthy (assoc "code" props) = true
        \/ truthy (assoc "status" props) = true)
    /\ errorText error = stringify (JObj props).
Proof. exact (guard_gives_object error). Qed.

Lemma errorIsGoogleAIError_envelope_witness :
  exists resp props,
    response Samples.invalidKey = Some resp
    /\ getPropOpt (data resp) "error" = Some (JObj props)
    /\ (truthy (assoc "code" props) = true
        \/ truthy (assoc "status" props) = true)
    /\ errorText Samples.invalidKey = stringify (JObj props).
Proof.
  apply (errorIsGoogleAIError_envelope Samples.invalidKey); reflexivity.
Defined.

Section AnyPool.

Variable updateKey : string -> Patch -> GoogleAIKey -> GoogleAIKey.

(** The ways through [handleAxiosError]: the level and the message of the
    line logged, and the patch. *)
Lemma handle_cases (k : GoogleAIKey) (error : AxiosError) (now : Z) :
  exists level fields msg patch,
    handleAxiosError updateKey k error now
    = ([Log level (("key", Some (JStr (hash k))) :: fields) msg;
        UpdateKey (hash k) patch],
       updateKey (hash k) patch k)
    /\ ((level = LWarn /\ patch = disableAndRevoke)
        \/ (level = LWarn
            /\ msg = "Key is rate limited. Rechecking key in 1 minute."
            /\ patch = setLastChecked (now - (KEY_CHECK_PERIOD - 60 * 1000)))
        \/ (level = LError
            /\ msg = "Encountered unexpected error status while checking key. This may indicate a change in the API; please report this."
            /\ patch = setLastChecked now)
        \/ (level = LError
            /\ msg = "Network error while checking key; trying this key again in a minute."
            /\ patch = setLastChecked (now - (KEY_CHECK_PERIOD - 10 * 1000)))).
Proof.
  unfold handleAxiosError.
  destruct (response error) as [resp|];
    [destruct (truthy (errorIsGoogleAIError error))|].
  - destruct (status resp =? 400);
      [destruct (matchesJoined _ keyDeadMsgs400)|
       destruct ((status resp =? 401) || (status resp =? 403));
       [|destruct (status resp =? 429);
         [destruct (matchesJoined _ keyDeadMsgs429)|]]];
      do 4 eexists; (split; [reflexivity|]); tauto.
  - do 4 eexists; (split; [reflexivity|]); tauto.
  - do 4 eexists; (split; [reflexivity|]); tauto.
Qed.

End AnyPool.

(** Every handled failure gives one log line and then one call of
    [updateKey], on the hash of the key handled.  The patch either retires
    the key (both flags set to true together) or rewrites [lastChecked]
    alone, to a time not after now and less than one check period before
    it; it never names [modelFamilies] or [modelIds] and never sets a flag
    to false. *)
Theorem handleAxiosError_patch_shape
    (updateKey : string -> Patch -> GoogleAIKey -> GoogleAIKey)
    (k : GoogleAIKey) (error : AxiosError) (now : Z) :
  exists level fields msg patch,
    handleAxiosError updateKey k error now
    = ([Log level fields msg; UpdateKey (hash k) patch],
       updateKey (hash k) patch k)
    /\ p_modelFamilies patch = None
    /\ p_modelIds patch = None
    /\ p_isDisabled patch = p_isRevoked patch
    /\ p_isDisabled patch <> Some false
    /\ match p_lastChecked patch with
       | Some t => p_isDisabled patch = None
                   /\ now - KEY_CHECK_PERIOD < t <= now
       | None => p_isDisabled patch = Some true
       end.
Proof.
  destruct (handle_cases updateKey k error now)
    as [level [fields [msg [patch [E H]]]]].
  exists level, (("key", Some (JStr (hash k))) :: fields), msg, patch.
  split; [exact E|].
  unfold KEY_CHECK_PERIOD.
  destruct H as [[_ ->]|[[_ [_ ->]]|[[_ [_ ->]]|[_ [_ ->]]]]]; cbn;
    repeat split; try discriminate; lia.
Qed.

(** One line is logged, and its level and message go with the action: a
    warning when the key is retired or rate limited (recheck in a minute),
    an error when the status is unexpected (recheck after the full period)
    or when the failure has no envelope (recheck in ten seconds, under a
    message that says a minute). *)
Theorem handleAxiosError_log_level
    (updateKey : string -> Patch -> GoogleAIKey -> GoogleAIKey)
    (k : GoogleAIKey) (error : AxiosError) (now : Z) :
  let t := fst (handleAxiosError updateKey k error now) in
  exists level msg,
    logged t = [(level, msg)]
    /\ ((action now (hash k) t = Some Disable /\ level = LWarn)
        \/ (action now (hash k) t = Some (RecheckIn (60 * 1000))
            /\ level = LWarn
            /\ msg = "Key is rate limited. Rechecking key in 1 minute.")
        \/ (action now (hash k) t = Some (RecheckIn KEY_CHECK_PERIOD)
            /\ level = LError
            /\ msg = "Encountered unexpected error status while checking key. This may indicate a change in the API; please report this.")
        \/ (action now (hash k) t = Some (RecheckIn (10 * 1000))
            /\ level = LError
            /\ msg = "Network error while checking key; trying this key again in a minute.")).
Proof.
  cbv zeta.
  destruct (handle_cases updateKey k error now)
    as [level [fields [msg [patch [E H]]]]].
  exists level, msg.
  rewrite E; cbn [fst]; split; [reflexivity|].
  unfold action; cbn [updates flat_map app]; rewrite String.eqb_refl.
  destruct H as [[-> ->]|[[-> [-> ->]]|[[-> [-> ->]]|[-> [-> ->]]]]];
    cbn [actionOf setLastChecked disableAndRevoke];
    unfold dueTime, KEY_CHECK_PERIOD.
  - left; split; reflexivity.
  - right; left; split; [f_equal; f_equal; lia | split; reflexivity].
  - right; right; left; split; [f_equal; f_equal; lia | split; reflexivity].
  - right; right; right; split; [f_equal; f_equal; lia | split; reflexivity].
Qed.



(** Of the two patterns tested at HTTP 429, the one for the zero quota
    value can match no serialized error at all: its literal begins with
    slash, double quote, q, which [JSON.stringify] never writes.  A 429
    with an envelope retires the key exactly when its serialized error
    holds the text [/GenerateContentRequestsPerMinutePerProjectPerRegion/i],
    slashes and flag letter included, and reschedules it a minute ahead
    otherwise. *)
Theorem handleAxiosError_429
    (updateKey : string -> Patch -> GoogleAIKey -> GoogleAIKey)
    (k : GoogleAIKey) (error : AxiosError) (resp : AxiosResponse) (now : Z)
    (Hresp : response error = Some resp)
    (Henv : truthy (errorIsGoogleAIError error) = true)
    (H429 : status resp = 429) :
  let literal := "/GenerateContentRequestsPerMinutePerProjectPerRegion/i" in
  includes (RegExp_toString
              (mkRegExp (dquote ++ "quota_limit_value" ++ dquote ++ ":"
                         ++ dquote ++ "0" ++ dquote) "i"))
           (errorText error) = false
  /\ action now (hash k) (fst (handleAxiosError updateKey k error now))
     = Some (if includes literal (errorText error)
             then Disable else RecheckIn (60 * 1000)).
Proof.
  cbv zeta.
  destruct (guard_gives_object error Henv)
    as [resp' [props [_ [_ [_ Htext]]]]].
  assert (Hdead : includes
                    (RegExp_toString
                       (mkRegExp (dquote ++ "quota_limit_value" ++ dquote ++ ":"
                                  ++ dquote ++ "0" ++ dquote) "i"))
                    (errorText error) = false).
  { rewrite Htext.
    match goal with |- ?x = false => destruct x eqn:E; [|reflexivity] end.
    apply (JSFacts.includes_app_l SerializedText.slashQuoteQ) in E.
    now rewrite SerializedText.stringify_without_slashQuoteQ in E. }
  split; [exact Hdead|].
  rewrite (CheckerFacts.handle_with_envelope updateKey k error resp now Hresp Henv).
  unfold policyTable; rewrite H429; cbn [Z.eqb Pos.eqb orb].
  f_equal.
  replace (matchesJoined (errorText error) keyDeadMsgs429)
    with (includes "/GenerateContentRequestsPerMinutePerProjectPerRegion/i"
                   (errorText error)); [reflexivity|].
  unfold matchesJoined, String_match.
  match goal with
  | |- context [alternatives ?p] =>
      let r := eval vm_compute in (alternatives p) in
      change (alternatives p) with r
  end.
  cbn [existsb].
  match goal with
  | |- context [includes ?b (errorText error) || false] =>
      replace (includes b (errorText error)) with false
        by (symmetry; exact Hdead)
  end.
  now rewrite !orb_false_r.
Qed.

Lemma handleAxiosError_429_witness :
  action 5000 "goo-5f2c9a1e"
    (fst (handleAxiosError applyPatch Samples.sampleKey Samples.zeroQuota 5000))
  = Some (if includes "/GenerateContentRequestsPerMinutePerProjectPerRegion/i"
                      (errorText Samples.zeroQuota)
          then Disable else RecheckIn (60 * 1000)).
Proof.
  apply (handleAxiosError_429 applyPatch Samples.sampleKey Samples.zeroQuota
           _ 5000 eq_refl eq_refl eq_refl).
Defined.

(** An HTTP 400 with an envelope retires the key exactly when its
    serialized error holds one of the four pattern literals as text,
    slashes and flag letter included and letter case respected; otherwise
    it is rescheduled at the full period.  In particular a serialized
    error without any slash is never retired at 400. *)
Theorem handleAxiosError_400
    (updateKey : string -> Patch -> GoogleAIKey -> GoogleAIKey)
    (k : GoogleAIKey) (error : AxiosError) (resp : AxiosResponse) (now : Z)
    (Hresp : response error = Some resp)
    (Henv : truthy (errorIsGoogleAIError error) = true)
    (H400 : status resp = 400) :
  action now (hash k) (fst (handleAxiosError updateKey k error now))
  = Some (if existsb (fun literal => includes literal (errorText error))
                     ["/please enable billing/i"; "/API key not valid/i";
                      "/API key expired/i"; "/pass a valid API/i"]
          then Disable else RecheckIn KEY_CHECK_PERIOD)
  /\ (includes "/" (errorText error) = false ->
      action now (hash k) (fst (handleAxiosError updateKey k error now))
      = Some (RecheckIn KEY_CHECK_PERIOD)).
Proof.
  rewrite (CheckerFacts.handle_with_envelope updateKey k error resp now Hresp Henv).
  unfold policyTable; rewrite H400; cbn [Z.eqb Pos.eqb].
  split; [reflexivity|].
  intros Hs.
  now destruct (CheckerFacts.matchesJoined_needs_slash (errorText error) Hs)
    as [-> _].
Qed.

Lemma handleAxiosError_400_witness :
  action 5000 "goo-5f2c9a1e"
    (fst (handleAxiosError applyPatch Samples.sampleKey Samples.invalidKey 5000))
  = Some (RecheckIn KEY_CHECK_PERIOD).
Proof.
  apply (handleAxiosError_400 applyPatch Samples.sampleKey Samples.invalidKey
           _ 5000 eq_refl eq_refl eq_refl).
  vm_compute; reflexivity.
Defined.

End HandlerFacts.

(* ================================================================== *)
(** * The key checker: the outcomes of a probe                         *)
(* ================================================================== *)

Module ProbeOutcomes.
Import JS Checker.



(** The three outcomes of [testKeyOrFail].  It resolves exactly when the
    listing resolved and the smoke test was answered with status 200.  When
    the listing is rejected the smoke test is never sent, the key is not
    patched and nothing is logged; when the smoke test is rejected the key
    has been patched once and nothing is logged; on success it has been
    patched twice and one line is logged.  A rejection is handed on as it
    was received. *)
Theorem testKeyOrFail_outcomes
    (getGoogleAIModelFamily : string -> GoogleAIModelFamily)
    (updateKey : string -> Patch -> GoogleAIKey -> GoogleAIKey)
    (k : GoogleAIKey) (listed : Result ListModelsResponse)
    (answer : HttpOutcome) :
  let run := testKeyOrFail getGoogleAIModelFamily updateKey k listed answer in
  let t := fst (fst run) in
  (snd run = Resolved tt
   <-> (exists d, listed = Resolved d)
       /\ (exists r, answer = Response r /\ status r = 200))
  /\ (forall e, listed = Rejected e ->
                run = ([HttpGet (LIST_MODELS_URL ++ "?pageSize=1000&key=" ++ key k)],
                       k, Rejected e))
  /\ List.length (Trace.requests t)
     = match listed with Resolved _ => 2%nat | Rejected _ => 1%nat end
  /\ logged t
     = match snd run with
       | Resolved _ => [(LInfo, "Checked key.")]
       | Rejected _ => []
       end
  /\ List.length (updates t)
     = match listed, snd run with
       | Rejected _, _ => 0%nat
       | Resolved _, Rejected _ => 1%nat
       | Resolved _, Resolved _ => 2%nat
       end.
Proof.
  cbv zeta; unfold testKeyOrFail.
  destruct listed as [d|e0].
  - rewrite ProbeFacts.getProvisionedModels_resolved.
    unfold testGenerateContent, settle.
    destruct answer as [m|r].
    + cbn; repeat split; try discriminate.
      intros [_ [r [H _]]]; discriminate.
    + destruct (status r =? 200) eqn:E; cbn.
      * apply Z.eqb_eq in E.
        repeat split; try discriminate; eauto.
      * apply Z.eqb_neq in E.
        repeat split; try discriminate.
        intros [_ [r' [H H']]]; injection H as <-; contradiction.
  - cbn; repeat split; try discriminate.
    + intros [[d H] _]; discriminate.
    + intros e H; injection H as <-; reflexivity.
Qed.

End ProbeOutcomes.

(* ================================================================== *)
(** * The stream transcoder: validation, failures and the chunk        *)
(* ================================================================== *)

Module TranscoderShape.
Import JS Transcoder.

(** ** The text stripped is a piece of the text given *)

Lemma afterSpeaker_suffix (s r : string) :
  afterSpeaker s = Some r -> exists before, s = before ++ r.
Proof.
  revert r; induction s as [|c s IH]; intros r H.
  - cbn in H; discriminate.
  - cbn [afterSpeaker] in H.
    destruct (startsWith ": " (String c s)) eqn:E.
    + apply JSFacts.startsWith_two in E as [rest E].
      rewrite E in H |- *; cbn [drop] in H; injection H as <-.
      now exists ": ".
    + destruct (isLineTerminator c); [discriminate|].
      destruct (IH r H) as [before ->].
      now exists (String c before).
Qed.

Lemma trimStart_suffix (s : string) : exists before, s = before ++ trimStart s.
Proof.
  induction s as [|c s [before IH]]; [now exists ""|].
  cbn [trimStart]; destruct (isWhiteSpace c).
  - exists (String c before); cbn [append]; now rewrite <- IH.
  - now exists "".
Qed.

Lemma trimEnd_prefix (s : string) : exists after, s = trimEnd s ++ after.
Proof.
  induction s as [|c s [after IH]]; [now exists ""|].
  cbn [trimEnd].
  destruct (isWhiteSpace c && isEmpty (trimEnd s)) eqn:E.
  - now exists (String c s).
  - exists after; cbn [append]; now rewrite <- IH.
Qed.

Lemma append_assoc (a b c : string) : (a ++ b) ++ c = a ++ b ++ c.
Proof. induction a as [|x a IH]; cbn; [reflexivity | now rewrite IH]. Qed.

Lemma length_append (a b : string) :
  String.length (a ++ b) = (String.length a + String.length b)%nat.
Proof. induction a as [|x a IH]; cbn; [reflexivity | now rewrite IH]. Qed.

(** Line 49 only takes away: the content after the strip is one
    contiguous piece of the content before it, so it is never longer and
    holds nothing the provider did not send. *)
Theorem stripSpeaker_takes_a_piece (content : string) (r : JSValue) :
  stripSpeaker (JStr content) = Normal r ->
  exists before piece after,
    r = JStr piece
    /\ content = before ++ piece ++ after
    /\ (String.length piece <= String.length content)%nat.
Proof.
  cbn [stripSpeaker]; intros H; injection H as <-.
  assert (Hr : exists b, content = b ++ replaceSpeaker content).
  { unfold replaceSpeaker; destruct (afterSpeaker content) as [rest|] eqn:E;
      [now apply afterSpeaker_suffix | now exists ""]. }
  destruct Hr as [b1 Hr].
  destruct (trimStart_suffix (replaceSpeaker content)) as [b2 Hs].
  destruct (trimEnd_prefix (trimStart (replaceSpeaker content))) as [a He].
  exists (b1 ++ b2), (trim (replaceSpeaker content)), a.
  split; [reflexivity|].
  assert (E : content = (b1 ++ b2) ++ trim (replaceSpeaker content) ++ a).
  { unfold trim; rewrite <- He, append_assoc, <- Hs; exact Hr. }
  split; [exact E|].
  rewrite E at 2; rewrite !length_append; lia.
Qed.

Lemma stripSpeaker_takes_a_piece_witness :
  exists before piece after,
    JStr "Hello there" = JStr piece
    /\ "Assistant: Hello there  " = before ++ piece ++ after
    /\ (String.length piece <= String.length "Assistant: Hello there  ")%nat.
Proof.
  apply (stripSpeaker_takes_a_piece "Assistant: Hello there  "
           (JStr "Hello there")).
  reflexivity.
Defined.

(** ** What [transform] can throw *)

Lemma getProp_throws (v : JSU) (name : string) (e : Exn) :
  getProp v name = Throw e -> e = TypeError /\ isNullish v = true.
Proof.
  destruct v as [[| | | | |]|]; cbn; intros H; try discriminate;
    try (destruct (String.eqb name "length"); discriminate);
    injection H as <-; split; reflexivity.
Qed.

Lemma getFirst_throws (v : JSU) (e : Exn) :
  getFirst v = Throw e -> e = TypeError /\ isNullish v = true.
Proof.
  destruct v as [[| | |[|]| |]|]; cbn; intros H; try discriminate;
    injection H as <-; split; reflexivity.
Qed.

Lemma getFirst_not_nullish (v : JSU) :
  isNullish v = false -> exists r, getFirst v = Normal r.
Proof.
  destruct v as [[| | |[|]| |]|]; cbn; intros H; try discriminate; eauto.
Qed.

Lemma truthy_not_nullish (v : JSU) : truthy v = true -> isNullish v = false.
Proof. destruct v as [[| | | | |]|]; cbn; intros H; congruence. Qed.

(** With a first candidate that is not [null] or missing, the lines 37
    to 44 give a content. *)
Lemma content_of_candidate (completionEvent c : JSU) :
  firstCandidate completionEvent = Normal c ->
  isNullish c = false ->
  exists content,
    bind (extractText completionEvent) (overrideOnSafetyStop completionEvent)
    = Normal content.
Proof.
  intros Hc Hn.
  unfold extractText; rewrite Hc; cbn [bind].
  rewrite (TranscoderFacts.getProp_not_nullish c "content" Hn); cbn [bind].
  destruct (getFirst_not_nullish
              (orElse (getPropOpt (getPropOpt c "content") "parts")
                      (Some (JArr []))))
    as [part Hp].
  { unfold orElse.
    destruct (truthy (getPropOpt (getPropOpt c "content") "parts")) eqn:E;
      [now apply truthy_not_nullish | reflexivity]. }
  rewrite Hp; cbn [bind].
  unfold overrideOnSafetyStop.
  rewrite (TranscoderFacts.isSafetyStop_spec completionEvent c Hc Hn).
  cbn [bind].
  destruct (stopReason c && partsLengthIsZero c); [|eauto].
  rewrite Hc; cbn [bind].
  rewrite (TranscoderFacts.getProp_not_nullish c "safetyRatings" Hn).
  cbn [bind]; eauto.
Qed.

(** Every way through [transform], by its first candidate [c]. *)
Lemma transform_outcome (params : Params) (completionEvent : JSU) (now : Z) :
  match firstCandidate completionEvent with
  | Throw _ => transform params completionEvent now = Throw TypeError
  | Normal c =>
      if isNullish c
      then transform params completionEvent now = Throw TypeError
      else exists content,
          Emitted.contentAfterOverride completionEvent = Normal content
          /\ transform params completionEvent now
             = let finishReason := coalesce (getPropOpt c "finishReason") JNull in
               if p_index params =? 0
               then match content with
                    | JStr s => Normal (Emitted.chunkOutput params now
                                          (JStr (trim (replaceSpeaker s)))
                                          finishReason)
                    | _ => Throw TypeError
                    end
               else Normal (Emitted.chunkOutput params now content finishReason)
  end.
Proof.
  destruct (firstCandidate completionEvent) as [c|e] eqn:Hc.
  - destruct (isNullish c) eqn:Hn.
    + unfold transform, extractText; rewrite Hc; cbn [bind].
      destruct c as [[| | | | |]|]; try discriminate; reflexivity.
    + destruct (content_of_candidate completionEvent c Hc Hn)
        as [content Hcontent].
      exists content; split; [exact Hcontent|].
      unfold transform.
      unfold Emitted.contentAfterOverride in Hcontent.
      destruct (extractText completionEvent) as [text|]; [|discriminate].
      cbn [bind] in Hcontent |- *; rewrite Hcontent; cbn [bind].
      cbv zeta.
      destruct (p_index params =? 0).
      * destruct content; cbn [stripSpeaker bind]; try reflexivity.
        rewrite Hc; cbn [bind].
        rewrite (TranscoderFacts.getProp_not_nullish c "finishReason" Hn).
        reflexivity.
      * cbn [bind]; rewrite Hc; cbn [bind].
        rewrite (TranscoderFacts.getProp_not_nullish c "finishReason" Hn).
        reflexivity.
  - unfold transform, extractText; rewrite Hc; cbn [bind].
    unfold firstCandidate in Hc.
    destruct (getProp completionEvent "candidates") as [cands|e'] eqn:E;
      cbn [bind] in Hc.
    + now apply getFirst_throws in Hc as [-> _].
    + injection Hc as <-; now apply getProp_throws in E as [-> _].
Qed.

Section AnyParsers.

Variable parseEvent : string -> ServerSentEvent.
Variable JSON_parse : string -> option JSValue.
Variable coercedGt0 : JSValue -> Completion bool.

Abbreviation googleAIToOpenAI :=
  (googleAIToOpenAI parseEvent JSON_parse coercedGt0).
Abbreviation asCompletion := (asCompletion JSON_parse coercedGt0).
Abbreviation tryCompletion := (tryCompletion JSON_parse coercedGt0).

(** What [asCompletion] lets through is an object with a [candidates]
    property that is not [null], so that [candidates[0]] can be read. *)
Lemma accepted_is_object (ev : ServerSentEvent) (parsed : JSValue) :
  tryCompletion ev = Normal parsed ->
  JSON_parse (data ev) = Some parsed
  /\ exists props candidates c,
       parsed = JObj props
       /\ assoc "candidates" props = Some candidates
       /\ candidates <> JNull
       /\ firstCandidate (Some parsed) = Normal c.
Proof.
  unfold Transcoder.tryCompletion; intros H.
  destruct (JSON_parse (data ev)) as [p|]; [|discriminate].
  apply TranscoderFacts.bind_normal in H as [cands [Hc H]].
  apply TranscoderFacts.bind_normal in H as [positive [Hg H]].
  destruct positive; [injection H as <-|discriminate].
  split; [reflexivity|].
  destruct p as [| | | | |props]; cbn in Hc; try discriminate;
    try (injection Hc as <-; cbn in Hg; discriminate);
    try (destruct (String.eqb "candidates" "length");
         injection Hc as <-; cbn in Hg; discriminate).
  injection Hc as <-.
  destruct (assoc "candidates" props) as [candidates|] eqn:E;
    [|cbn in Hg; discriminate].
  destruct (getFirst_not_nullish (Some candidates)) as [c Hf].
  { destruct candidates; cbn in Hg |- *; try reflexivity; discriminate. }
  exists props, candidates, c.
  split; [reflexivity|split; [exact E|split]].
  - intros ->; cbn in Hg; discriminate.
  - unfold firstCandidate; cbn [getProp bind]; rewrite E; exact Hf.
Qed.

(** How [asCompletion] sorts payloads.  Text that is not JSON, the value
    [null], and any value without a [candidates] of positive length
    (a top-level array, string, number or boolean; an object whose
    [candidates] is missing, [null] or an empty array) give [null] after
    one warning, which records a SyntaxError, a TypeError or the error
    "Missing required fields".  An object whose [candidates] is a
    non-empty array is returned as parsed, nothing logged, and its elements
    are not looked at.  Whatever is returned is an object whose
    [candidates] is not [null]. *)
Theorem asCompletion_validation (ev : ServerSentEvent) :
  let warned e := ([Warn e ev "Received invalid event"], None) in
  (JSON_parse (data ev) = None -> asCompletion ev = warned SyntaxError)
  /\ (JSON_parse (data ev) = Some JNull -> asCompletion ev = warned TypeError)
  /\ (forall v,
        JSON_parse (data ev) = Some v ->
        match v with
        | JBool _ | JNum _ | JStr _ | JArr _ => True
        | JObj props =>
            match assoc "candidates" props with
            | None | Some JNull | Some (JArr []) => True
            | _ => False
            end
        | JNull => False
        end ->
        asCompletion ev = warned (Error "Missing required fields"))
  /\ (forall props c cs,
        JSON_parse (data ev) = Some (JObj props) ->
        assoc "candidates" props = Some (JArr (c :: cs)) ->
        asCompletion ev = ([], Some (JObj props)))
  /\ (forall parsed,
        snd (asCompletion ev) = Some parsed ->
        fst (asCompletion ev) = []
        /\ JSON_parse (data ev) = Some parsed
        /\ exists props candidates,
             parsed = JObj props
             /\ assoc "candidates" props = Some candidates
             /\ candidates <> JNull).
Proof.
  cbv zeta; unfold Transcoder.asCompletion.
  split; [|split; [|split; [|split]]].
  - unfold Transcoder.tryCompletion; now intros ->.
  - unfold Transcoder.tryCompletion; now intros ->.
  - unfold Transcoder.tryCompletion; intros v -> Hv.
    destruct v as [|b|n|t|xs|props]; try contradiction; cbn;
      try reflexivity.
    destruct (assoc "candidates" props) as [[| | | |[|]|]|];
      try contradiction; reflexivity.
  - unfold Transcoder.tryCompletion; intros props c cs -> Hc.
    cbn [getProp bind]; rewrite Hc.
    unfold getPropOpt; cbn [getProp String.eqb Ascii.eqb Bool.eqb gt0 bind].
    replace (0 <? Z.of_nat (List.length (c :: cs))) with true;
      [reflexivity|].
    symmetry; apply Z.ltb_lt; cbn [List.length]; lia.
  - intros parsed H.
    destruct (tryCompletion ev) as [p|e] eqn:E; cbn [fst snd] in *;
      [|discriminate].
    injection H as <-.
    destruct (accepted_is_object ev p E)
      as [Hp [props [candidates [c [-> [Hc [Hn _]]]]]]].
    split; [reflexivity|split; [exact Hp|]].
    now exists props, candidates.
Qed.

(** Every call ends in one of four ways: the skip result with nothing
    logged, the skip result after exactly one warning, a chunk with
    nothing logged, or a TypeError with nothing logged.  So a frame is
    never both logged and forwarded, the only exception that can leave the
    function is a TypeError, and a frame that makes it throw leaves no
    trace in the log. *)
Theorem googleAIToOpenAI_outcomes (params : Params) (now : Z) :
  let ev := parseEvent (p_data params) in
  googleAIToOpenAI params now = ([], Normal skip)
  \/ (exists e,
        googleAIToOpenAI params now
        = ([Warn e ev "Received invalid event"], Normal skip))
  \/ (exists content finishReason,
        googleAIToOpenAI params now
        = ([], Normal (Emitted.chunkOutput params now content finishReason)))
  \/ googleAIToOpenAI params now = ([], Throw TypeError).
Proof.
  cbv zeta; unfold Transcoder.googleAIToOpenAI.
  destruct (isEmpty _ || String.eqb _ "[DONE]"); [now left|].
  unfold Transcoder.asCompletion.
  destruct (tryCompletion (parseEvent (p_data params))) as [parsed|e] eqn:E.
  - destruct (accepted_is_object _ _ E) as [_ [props [cands [c [-> _]]]]].
    cbn [truthy negb].
    pose proof (transform_outcome params (Some (JObj props)) now) as H.
    destruct (firstCandidate (Some (JObj props))) as [c'|e'].
    + destruct (isNullish c').
      * right; right; right; now rewrite H.
      * destruct H as [content [_ H]]; rewrite H; cbv zeta.
        destruct (p_index params =? 0).
        -- destruct content; try (right; right; right; reflexivity).
           right; right; left; eauto.
        -- right; right; left; eauto.
    + right; right; right; now rewrite H.
  - right; left; exists e; reflexivity.
Qed.


End AnyParsers.


(** When the safety override fires on a candidate whose [parts] is not an
    object (an array, as the provider sends it, or a string), the text it
    replaces is the empty string: no generated text is lost to the
    warning. *)
Theorem override_replaces_empty_text (completionEvent c : JSU) :
  firstCandidate completionEvent = Normal c ->
  stopReason c && partsLengthIsZero c = true ->
  (forall props,
      getPropOpt (getPropOpt c "content") "parts" <> Some (JObj props)) ->
  extractText completionEvent = Normal (JStr "")
  /\ Emitted.contentAfterOverride completionEvent
     = Normal (JStr (warningPrefix
                     ++ stringifyInTemplate (getPropOpt c "safetyRatings"))).
Proof.
  intros Hc Hs Hobj.
  apply andb_true_iff in Hs as [Hstop Hzero].
  assert (Hn : isNullish c = false).
  { destruct c as [[| | | | |]|]; try reflexivity;
      cbn in Hzero; discriminate. }
  assert (Htext : extractText completionEvent = Normal (JStr "")).
  { unfold extractText; rewrite Hc; cbn [bind].
    rewrite (TranscoderFacts.getProp_not_nullish c "content" Hn); cbn [bind].
    unfold partsLengthIsZero in Hzero.
    destruct (getPropOpt (getPropOpt c "content") "parts")
      as [[| | |t|xs|props]|]; try discriminate.
    - destruct t; [reflexivity | discriminate].
    - destruct xs; [reflexivity | discriminate].
    - now destruct (Hobj props). }
  split; [exact Htext|].
  unfold Emitted.contentAfterOverride; rewrite Htext; cbn [bind].
  unfold overrideOnSafetyStop.
  rewrite (TranscoderFacts.isSafetyStop_spec completionEvent c Hc Hn).
  rewrite Hstop, Hzero; cbn [andb bind].
  rewrite Hc; cbn [bind].
  now rewrite (TranscoderFacts.getProp_not_nullish c "safetyRatings" Hn).
Qed.

Lemma override_replaces_empty_text_witness :
  extractText
    (Parse.JSON_parse (data (Parse.parseEvent Samples.safetyFrameEmptyParts)))
  = Normal (JStr "").
Proof.
  apply (override_replaces_empty_text
           (Parse.JSON_parse
              (data (Parse.parseEvent Samples.safetyFrameEmptyParts)))
           (Some (JObj [("content",
                         JObj [("parts", JArr []); ("role", JStr "model")]);
                        ("finishReason", JStr "SAFETY");
                        ("index", JNum 0);
                        ("safetyRatings",
                         JArr [JObj [("category",
                                      JStr "HARM_CATEGORY_HARASSMENT");
                                     ("probability", JStr "HIGH")]])])));
    [vm_compute; reflexivity | vm_compute; reflexivity |].
  intros props; vm_compute; discriminate.
Defined.

End TranscoderShape.
